(** * VITravels: ride inventory and booking consistency

    A shallow embedding of the server side of VITravels: the in-memory
    store [MemStorage] (server/storage.ts), the zod schemas it is fed
    through (shared/schema.ts) and the ride and booking route handlers
    (server/routes.ts), followed by the properties of the seat inventory,
    the ride status and the booking life cycle.

    Modelling conventions.
    - The two [Map<string, _>] members of [MemStorage] are [gmap string _].
    - Seat counts are JavaScript numbers that the schemas constrain with
      [z.number().int()]; they are integers of [Z] here (exact for doubles
      below 2^53).  Prices are [z.number()] and are rationals of [Q].
      The code adds and subtracts seat counts as binary64 numbers, which
      is the arithmetic of [Z] as long as operands and result are at most
      [maxSafeInteger]; the schemas set no upper limit, so the statements
      about several seat updates in a row assume rides are offered with at
      most that many seats, which keeps every seat count in that range.
    - [randomUUID()] and [new Date().toISOString()] are inputs of the
      functions that call them.
    - An [async] method is a computation of the state monad [M] over the
      store; [await x <- m; k] is its bind.  Every promise of [MemStorage]
      is already resolved, so a handler runs to completion before the next
      request is looked at: handlers are atomic steps.
    - [requireAuth] has run: a handler receives the caller's user id.  The
      user table is only read to decorate replies with the creator's
      profile and is left out of the store and of the reply bodies. *)

From Stdlib Require Import ZArith QArith Lia.
From stdpp Require Import gmap strings fin_maps.
From stdpp Require Import sorting.

Local Open Scope string_scope.
Local Open Scope Z_scope.

(** ** Data model (shared/schema.ts) *)

Module Ride.
(** [Ride]: [status] is a string, as the edit form sends "CANCELLED"
    next to the schema's "OPEN" and "FULL". *)
Record t : Type := mk {
  id : string;
  creatorId : string;
  from : string;
  to : string;
  date : string;
  time : string;
  vehicleType : string;
  availableSeats : Z;
  totalSeats : Z;
  pricePerHead : Q;
  whatsappLink : string;
  additionalMsg : option string;
  status : string;
  createdAt : string
}.
End Ride.

Module RidePatch.
(** [Partial<Ride>]: a field is [None] when the key is absent. *)
Record t : Type := mk {
  id : option string;
  creatorId : option string;
  from : option string;
  to : option string;
  date : option string;
  time : option string;
  vehicleType : option string;
  availableSeats : option Z;
  totalSeats : option Z;
  pricePerHead : option Q;
  whatsappLink : option string;
  additionalMsg : option string;
  status : option string;
  createdAt : option string
}.

Definition empty : t :=
  mk None None None None None None None None None None None None None None.

(** [{ availableSeats: n }] *)
Definition seats (n : Z) : t :=
  mk None None None None None None None (Some n) None None None None None None.

(** [{ status: s }] *)
Definition ofStatus (s : string) : t :=
  mk None None None None None None None None None None None None (Some s) None.

(** [{ pricePerHead: p }] *)
Definition price (p : Q) : t :=
  mk None None None None None None None None None (Some p) None None None None.
End RidePatch.

Module InsertRide.
(** The value [insertRideSchema] is run on. *)
Record t : Type := mk {
  from : string;
  to : string;
  date : string;
  time : string;
  vehicleType : string;
  availableSeats : Z;
  pricePerHead : Q;
  whatsappLink : string;
  additionalMsg : option string
}.
End InsertRide.

Inductive BookingStatus : Type := BOOKED | CANCELLED.

Module Booking.
Record t : Type := mk {
  id : string;
  rideId : string;
  userId : string;
  seatsBooked : Z;
  status : BookingStatus;
  totalPrice : Q;
  bookedAt : string;
  cancelledAt : option string
}.
End Booking.

Module InsertBooking.
Record t : Type := mk {
  rideId : string;
  seatsBooked : Z
}.
End InsertBooking.

(** [{ ...ride, ...updates }] *)
Definition spread (ride : Ride.t) (updates : RidePatch.t) : Ride.t :=
  {| Ride.id := default (Ride.id ride) (RidePatch.id updates);
     Ride.creatorId := default (Ride.creatorId ride) (RidePatch.creatorId updates);
     Ride.from := default (Ride.from ride) (RidePatch.from updates);
     Ride.to := default (Ride.to ride) (RidePatch.to updates);
     Ride.date := default (Ride.date ride) (RidePatch.date updates);
     Ride.time := default (Ride.time ride) (RidePatch.time updates);
     Ride.vehicleType := default (Ride.vehicleType ride) (RidePatch.vehicleType updates);
     Ride.availableSeats :=
       default (Ride.availableSeats ride) (RidePatch.availableSeats updates);
     Ride.totalSeats := default (Ride.totalSeats ride) (RidePatch.totalSeats updates);
     Ride.pricePerHead := default (Ride.pricePerHead ride) (RidePatch.pricePerHead updates);
     Ride.whatsappLink := default (Ride.whatsappLink ride) (RidePatch.whatsappLink updates);
     Ride.additionalMsg :=
       match RidePatch.additionalMsg updates with
       | Some m => Some m
       | None => Ride.additionalMsg ride
       end;
     Ride.status := default (Ride.status ride) (RidePatch.status updates);
     Ride.createdAt := default (Ride.createdAt ride) (RidePatch.createdAt updates) |}.

(** [updatedRide.status = s] *)
Definition setStatus (s : string) (r : Ride.t) : Ride.t :=
  {| Ride.id := Ride.id r; Ride.creatorId := Ride.creatorId r;
     Ride.from := Ride.from r; Ride.to := Ride.to r;
     Ride.date := Ride.date r; Ride.time := Ride.time r;
     Ride.vehicleType := Ride.vehicleType r;
     Ride.availableSeats := Ride.availableSeats r;
     Ride.totalSeats := Ride.totalSeats r;
     Ride.pricePerHead := Ride.pricePerHead r;
     Ride.whatsappLink := Ride.whatsappLink r;
     Ride.additionalMsg := Ride.additionalMsg r;
     Ride.status := s;
     Ride.createdAt := Ride.createdAt r |}.

(** ** Schemas

    A schema returns the messages of the issues zod raises, in the order of
    the schema's keys; the value parses when the list is empty. *)

Definition issue (failed : bool) (message : string) : list string :=
  if failed then [message] else [].

Definition vehicleTypes : list string := ["car"; "bike"; "auto"; "bus"].

Definition insertRideSchema (v : InsertRide.t) : list string :=
  issue (String.length (InsertRide.from v) <? 2)%nat "From location is required"
  ++ issue (String.length (InsertRide.to v) <? 2)%nat "To location is required"
  ++ issue (String.length (InsertRide.date v) <? 1)%nat "Date is required"
  ++ issue (String.length (InsertRide.time v) <? 1)%nat "Time is required"
  ++ issue (negb (existsb (String.eqb (InsertRide.vehicleType v)) vehicleTypes))
       "Invalid enum value"
  ++ issue (InsertRide.availableSeats v <? 1) "Must have at least 1 seat"
  ++ issue (negb (Qle_bool 0 (InsertRide.pricePerHead v))) "Price cannot be negative"
  ++ issue (String.length (InsertRide.whatsappLink v) <? 1)%nat "WhatsApp link is required".

Definition insertBookingSchema (v : InsertBooking.t) : list string :=
  issue (InsertBooking.seatsBooked v <? 1) "Must book at least 1 seat".

(** ** The store (server/storage.ts) *)

Record MemStorage : Type := mkStorage {
  rides : gmap string Ride.t;
  bookings : gmap string Booking.t
}.

(** [new MemStorage()] *)
Definition storage : MemStorage := mkStorage ∅ ∅.

Definition M (A : Type) : Type := MemStorage → A * MemStorage.

Definition ret {A} (a : A) : M A := λ s, (a, s).

Definition bind {A B} (m : M A) (k : A → M B) : M B :=
  λ s, let (a, s') := m s in k a s'.

Notation "'await' x <- m ; k" := (bind m (λ x, k))
  (at level 10, x name, m at level 100, k at level 200).

Definition setRide (id : string) (r : Ride.t) : M unit :=
  λ s, (tt, mkStorage (<[id := r]> (rides s)) (bookings s)).

Definition setBooking (id : string) (b : Booking.t) : M unit :=
  λ s, (tt, mkStorage (rides s) (<[id := b]> (bookings s))).

Definition getRide (id : string) : M (option Ride.t) :=
  λ s, (rides s !! id, s).

(** The [ride] object literal of [createRide]. *)
Definition newRide (insertRide : InsertRide.t) (creatorId : string)
    (uuid now : string) : Ride.t :=
  {| Ride.id := uuid;
     Ride.creatorId := creatorId;
     Ride.from := InsertRide.from insertRide;
     Ride.to := InsertRide.to insertRide;
     Ride.date := InsertRide.date insertRide;
     Ride.time := InsertRide.time insertRide;
     Ride.vehicleType := InsertRide.vehicleType insertRide;
     Ride.availableSeats := InsertRide.availableSeats insertRide;
     Ride.totalSeats := InsertRide.availableSeats insertRide;
     Ride.pricePerHead := InsertRide.pricePerHead insertRide;
     Ride.whatsappLink := InsertRide.whatsappLink insertRide;
     Ride.additionalMsg := InsertRide.additionalMsg insertRide;
     Ride.status := "OPEN";
     Ride.createdAt := now |}.

Definition createRide (insertRide : InsertRide.t) (creatorId : string)
    (uuid now : string) : M Ride.t :=
  let ride := newRide insertRide creatorId uuid now in
  await _ <- setRide uuid ride;
  ret ride.

(** The status the store derives when [autoUpdateStatus] is set and the
    patch carries [availableSeats]. *)
Definition deriveStatus (ride updatedRide : Ride.t) : Ride.t :=
  if Ride.availableSeats updatedRide <=? 0 then setStatus "FULL" updatedRide
  else if String.eqb (Ride.status ride) "FULL" && (0 <? Ride.availableSeats updatedRide)
       then setStatus "OPEN" updatedRide
       else updatedRide.

Definition updateRide (id : string) (updates : RidePatch.t)
    (autoUpdateStatus : bool) : M (option Ride.t) :=
  await ride <- getRide id;
  match ride with
  | None => ret None
  | Some ride =>
      let updatedRide := spread ride updates in
      let updatedRide :=
        if autoUpdateStatus && bool_decide (is_Some (RidePatch.availableSeats updates))
        then deriveStatus ride updatedRide
        else updatedRide in
      await _ <- setRide id updatedRide;
      ret (Some updatedRide)
  end.

Definition deleteRide (id : string) : M bool :=
  λ s, (bool_decide (is_Some (rides s !! id)),
        mkStorage (delete id (rides s)) (bookings s)).

Definition getBooking (id : string) : M (option Booking.t) :=
  λ s, (bookings s !! id, s).

(** The [booking] object literal of [createBooking]. *)
Definition newBooking (insertBooking : InsertBooking.t) (userId : string)
    (pricePerHead : Q) (uuid now : string) : Booking.t :=
  {| Booking.id := uuid;
     Booking.rideId := InsertBooking.rideId insertBooking;
     Booking.userId := userId;
     Booking.seatsBooked := InsertBooking.seatsBooked insertBooking;
     Booking.status := BOOKED;
     Booking.totalPrice :=
       (inject_Z (InsertBooking.seatsBooked insertBooking) * pricePerHead)%Q;
     Booking.bookedAt := now;
     Booking.cancelledAt := None |}.

Definition createBooking (insertBooking : InsertBooking.t) (userId : string)
    (pricePerHead : Q) (uuid now : string) : M Booking.t :=
  let booking := newBooking insertBooking userId pricePerHead uuid now in
  await _ <- setBooking uuid booking;
  ret booking.

(** [{ ...booking, status: "CANCELLED", cancelledAt: now }] *)
Definition cancelledBooking (booking : Booking.t) (now : string) : Booking.t :=
  {| Booking.id := Booking.id booking;
     Booking.rideId := Booking.rideId booking;
     Booking.userId := Booking.userId booking;
     Booking.seatsBooked := Booking.seatsBooked booking;
     Booking.status := CANCELLED;
     Booking.totalPrice := Booking.totalPrice booking;
     Booking.bookedAt := Booking.bookedAt booking;
     Booking.cancelledAt := Some now |}.

Definition cancelBooking (id : string) (now : string) : M (option Booking.t) :=
  await booking <- getBooking id;
  match booking with
  | None => ret None
  | Some booking =>
      await _ <- setBooking id (cancelledBooking booking now);
      ret (Some (cancelledBooking booking now))
  end.

(** ** The route handlers (server/routes.ts) *)

(** What a handler sends: [res.status(code).json(body)],
    [res.status(code).json({ error })], or the 400 reply of the
    [ZodError] branch, [res.status(400).json({ error: error.errors })]. *)
Inductive Reply (A : Type) : Type :=
| Json (code : Z) (body : A)
| JsonError (code : Z) (error : string)
| ZodError (issues : list string).
Arguments Json {A} code body.
Arguments JsonError {A} code error.
Arguments ZodError {A} issues.

(** [rideInput] of POST /api/rides: the body with [additionalMsg]
    defaulted to the empty string. *)
Definition rideInput (body : InsertRide.t) : InsertRide.t :=
  {| InsertRide.from := InsertRide.from body;
     InsertRide.to := InsertRide.to body;
     InsertRide.date := InsertRide.date body;
     InsertRide.time := InsertRide.time body;
     InsertRide.vehicleType := InsertRide.vehicleType body;
     InsertRide.availableSeats := InsertRide.availableSeats body;
     InsertRide.pricePerHead := InsertRide.pricePerHead body;
     InsertRide.whatsappLink := InsertRide.whatsappLink body;
     InsertRide.additionalMsg := Some (default "" (InsertRide.additionalMsg body)) |}.

(** POST /api/rides *)
Definition postApiRides (userId : string) (body : InsertRide.t)
    (uuid now : string) : M (Reply Ride.t) :=
  match insertRideSchema (rideInput body) with
  | [] =>
      await ride <- createRide (rideInput body) userId uuid now;
      ret (Json 201 ride)
  | issues => ret (ZodError issues)
  end.

(** PATCH /api/rides/:id *)
Definition patchApiRidesId (userId id : string) (body : RidePatch.t)
    : M (Reply (option Ride.t)) :=
  await ride <- getRide id;
  match ride with
  | None => ret (JsonError 404 "Ride not found")
  | Some ride =>
      if negb (String.eqb (Ride.creatorId ride) userId)
      then ret (JsonError 403 "Not authorized to update this ride")
      else
        await updatedRide <- updateRide id body false;
        ret (Json 200 updatedRide)
  end.

(** DELETE /api/rides/:id *)
Definition deleteApiRidesId (userId id : string) : M (Reply unit) :=
  await ride <- getRide id;
  match ride with
  | None => ret (JsonError 404 "Ride not found")
  | Some ride =>
      if negb (String.eqb (Ride.creatorId ride) userId)
      then ret (JsonError 403 "Not authorized to delete this ride")
      else
        await _ <- deleteRide id;
        ret (Json 200 tt)
  end.

(** POST /api/bookings; the body of the 201 reply is the booking and the
    ride as read back after the seat update.  The difference of the seat
    update is that of [Z], which is the code's for seat counts up to
    [maxSafeInteger] (see the conventions at the head of the file). *)
Definition postApiBookings (userId rideId : string) (seatsBooked : Z)
    (uuid now : string) : M (Reply (Booking.t * option Ride.t)) :=
  let validatedData := InsertBooking.mk rideId seatsBooked in
  match insertBookingSchema validatedData with
  | [] =>
      await ride <- getRide rideId;
      match ride with
      | None => ret (JsonError 404 "Ride not found")
      | Some ride =>
          if String.eqb (Ride.creatorId ride) userId
          then ret (JsonError 400 "Cannot book your own ride")
          else if Ride.availableSeats ride <? seatsBooked
          then ret (JsonError 400 "Not enough seats available")
          else if String.eqb (Ride.status ride) "FULL"
          then ret (JsonError 400 "This ride is fully booked")
          else
            await booking <-
              createBooking validatedData userId (Ride.pricePerHead ride) uuid now;
            await _ <-
              updateRide rideId
                (RidePatch.seats (Ride.availableSeats ride - seatsBooked)) true;
            await updatedRide <- getRide rideId;
            ret (Json 201 (booking, updatedRide))
      end
  | issues => ret (ZodError issues)
  end.

(** DELETE /api/bookings/:id.  The sum of the seat restoration is that of
    [Z], which is the code's when it does not exceed [maxSafeInteger]. *)
Definition deleteApiBookingsId (userId id : string) (now : string)
    : M (Reply (option Booking.t)) :=
  await booking <- getBooking id;
  match booking with
  | None => ret (JsonError 404 "Booking not found")
  | Some booking =>
      if negb (String.eqb (Booking.userId booking) userId)
      then ret (JsonError 403 "Not authorized to cancel this booking")
      else
        match Booking.status booking with
        | CANCELLED => ret (JsonError 400 "Booking already cancelled")
        | BOOKED =>
            await cancelledBooking <- cancelBooking id now;
            await ride <- getRide (Booking.rideId booking);
            await _ <-
              match ride with
              | Some ride =>
                  updateRide (Booking.rideId booking)
                    (RidePatch.seats
                       (Ride.availableSeats ride + Booking.seatsBooked booking))
                    true
              | None => ret None
              end;
            ret (Json 200 cancelledBooking)
        end
  end.

(** ** Error kinds

    The handlers tell their failures apart by HTTP code and message.  The
    design document names them [NotFound] (404), [Forbidden] (403),
    [InvalidInput] (a schema rejection), [InsufficientCapacity] (the 400 of
    the seat check) and [InvalidOperation] (every other 400: booking one's
    own ride, a ride that is fully booked, a second cancellation). *)
Inductive ErrorKind : Type :=
  NotFound | Forbidden | InvalidOperation | InsufficientCapacity | InvalidInput.

Definition errorKind {A} (reply : Reply A) : option ErrorKind :=
  match reply with
  | Json _ _ => None
  | ZodError _ => Some InvalidInput
  | JsonError code error =>
      if code =? 404 then Some NotFound
      else if code =? 403 then Some Forbidden
      else if code =? 400 then
        if String.eqb error "Not enough seats available"
        then Some InsufficientCapacity
        else Some InvalidOperation
      else None
  end.

(** ** Sequences of operations *)

Inductive Op : Type :=
| CreateRide (creatorId : string) (input : InsertRide.t) (uuid now : string)
| UpdateRide (rideId callerId : string) (patch : RidePatch.t)
| DeleteRide (rideId callerId : string)
| CreateBooking (bookerId rideId : string) (seatsBooked : Z) (uuid now : string)
| CancelBooking (callerId bookingId : string) (now : string).

Definition step (op : Op) (s : MemStorage) : MemStorage :=
  match op with
  | CreateRide creatorId input uuid now => snd (postApiRides creatorId input uuid now s)
  | UpdateRide rideId callerId patch => snd (patchApiRidesId callerId rideId patch s)
  | DeleteRide rideId callerId => snd (deleteApiRidesId callerId rideId s)
  | CreateBooking bookerId rideId seatsBooked uuid now =>
      snd (postApiBookings bookerId rideId seatsBooked uuid now s)
  | CancelBooking callerId bookingId now => snd (deleteApiBookingsId callerId bookingId now s)
  end.

Fixpoint run (ops : list Op) (s : MemStorage) : MemStorage :=
  match ops with
  | [] => s
  | op :: ops => run ops (step op s)
  end.

(** [randomUUID()] never returns an identifier it returned before: the id
    of a new ride is the key of no ride and is referenced by no booking
    (a booking's [rideId] was the key of a ride when the booking was made),
    and the id of a new booking is the key of no booking. *)
Definition uuidFresh (op : Op) (s : MemStorage) : bool :=
  match op with
  | CreateRide _ _ uuid _ =>
      bool_decide (rides s !! uuid = None)
      && bool_decide (map_Forall (λ _ b, Booking.rideId b ≠ uuid) (bookings s))
  | CreateBooking _ _ _ uuid _ => bool_decide (bookings s !! uuid = None)
  | _ => true
  end.

(** The patch of an [UpdateRide] leaves the two seat counters of the ride
    it addresses at their values: each is absent or carries the current
    value. *)
Definition keepsSeats (op : Op) (s : MemStorage) : bool :=
  match op with
  | UpdateRide rideId _ patch =>
      match rides s !! rideId with
      | Some ride =>
          bool_decide (default (Ride.availableSeats ride) (RidePatch.availableSeats patch)
                       = Ride.availableSeats ride)
          && bool_decide (default (Ride.totalSeats ride) (RidePatch.totalSeats patch)
                          = Ride.totalSeats ride)
      | None => true
      end
  | _ => true
  end.

(** [allSteps ok ops s]: [ok] holds of every operation of [ops] in the
    store it is run in, starting from [s]. *)
Fixpoint allSteps (ok : Op → MemStorage → bool) (ops : list Op) (s : MemStorage) : bool :=
  match ops with
  | [] => true
  | op :: ops => ok op s && allSteps ok ops (step op s)
  end.

(** The seats of a ride that are held by bookings: the sum of
    [seatsBooked] over the bookings of the ride whose status is BOOKED. *)
Definition holds (rideId : string) (b : Booking.t) : Z :=
  match Booking.status b with
  | BOOKED => if String.eqb (Booking.rideId b) rideId then Booking.seatsBooked b else 0
  | CANCELLED => 0
  end.

Definition bookedSeats (rideId : string) (bs : gmap string Booking.t) : Z :=
  map_fold (λ _ b acc, holds rideId b + acc) 0 bs.

(** ** The effect of a handler on the store

    One relation per handler: the reply and the store a call ends in, by
    the branch the handler takes. *)

(** The ride the store keeps after a seat update sent by a booking
    handler: [updateRide(rideId, { availableSeats })]. *)
Definition withSeats (ride : Ride.t) (availableSeats : Z) : Ride.t :=
  deriveStatus ride (spread ride (RidePatch.seats availableSeats)).

Inductive BookingOutcome (userId rideId : string) (seatsBooked : Z) (uuid now : string)
    (s : MemStorage)
  : Reply (Booking.t * option Ride.t) * MemStorage → Prop :=
| booking_rejected reply :
    errorKind reply ≠ None →
    BookingOutcome userId rideId seatsBooked uuid now s (reply, s)
| booking_accepted ride :
    rides s !! rideId = Some ride →
    Ride.creatorId ride ≠ userId →
    1 ≤ seatsBooked ≤ Ride.availableSeats ride →
    Ride.status ride ≠ "FULL" →
    let booking :=
      newBooking (InsertBooking.mk rideId seatsBooked) userId
        (Ride.pricePerHead ride) uuid now in
    let ride' := withSeats ride (Ride.availableSeats ride - seatsBooked) in
    BookingOutcome userId rideId seatsBooked uuid now s
      (Json 201 (booking, Some ride'),
       mkStorage (<[rideId := ride']> (rides s)) (<[uuid := booking]> (bookings s))).

Inductive CancelOutcome (userId id now : string) (s : MemStorage)
  : Reply (option Booking.t) * MemStorage → Prop :=
| cancel_rejected reply :
    errorKind reply ≠ None →
    CancelOutcome userId id now s (reply, s)
| cancel_restored booking ride :
    bookings s !! id = Some booking →
    Booking.userId booking = userId →
    Booking.status booking = BOOKED →
    rides s !! Booking.rideId booking = Some ride →
    let ride' :=
      withSeats ride (Ride.availableSeats ride + Booking.seatsBooked booking) in
    CancelOutcome userId id now s
      (Json 200 (Some (cancelledBooking booking now)),
       mkStorage (<[Booking.rideId booking := ride']> (rides s))
         (<[id := cancelledBooking booking now]> (bookings s)))
| cancel_orphaned booking :
    bookings s !! id = Some booking →
    Booking.userId booking = userId →
    Booking.status booking = BOOKED →
    rides s !! Booking.rideId booking = None →
    CancelOutcome userId id now s
      (Json 200 (Some (cancelledBooking booking now)),
       mkStorage (rides s) (<[id := cancelledBooking booking now]> (bookings s))).

Inductive CreationOutcome (userId : string) (body : InsertRide.t) (uuid now : string)
    (s : MemStorage)
  : Reply Ride.t * MemStorage → Prop :=
| ride_rejected issues :
    insertRideSchema (rideInput body) = issues →
    issues ≠ [] →
    CreationOutcome userId body uuid now s (ZodError issues, s)
| ride_created :
    insertRideSchema (rideInput body) = [] →
    let ride := newRide (rideInput body) userId uuid now in
    CreationOutcome userId body uuid now s
      (Json 201 ride, mkStorage (<[uuid := ride]> (rides s)) (bookings s)).

Inductive UpdateOutcome (userId id : string) (body : RidePatch.t) (s : MemStorage)
  : Reply (option Ride.t) * MemStorage → Prop :=
| update_rejected reply :
    errorKind reply ≠ None →
    UpdateOutcome userId id body s (reply, s)
| update_applied ride :
    rides s !! id = Some ride →
    Ride.creatorId ride = userId →
    UpdateOutcome userId id body s
      (Json 200 (Some (spread ride body)),
       mkStorage (<[id := spread ride body]> (rides s)) (bookings s)).

Inductive DeletionOutcome (userId id : string) (s : MemStorage) : Reply unit * MemStorage → Prop :=
| deletion_rejected reply :
    errorKind reply ≠ None →
    DeletionOutcome userId id s (reply, s)
| deletion_done ride :
    rides s !! id = Some ride →
    Ride.creatorId ride = userId →
    DeletionOutcome userId id s
      (Json 200 tt, mkStorage (delete id (rides s)) (bookings s)).

(** ** The seat ledger *)

(** Every ride's missing seats are the seats its bookings hold, no ride has
    a negative number of seats left, and every booking is for at least one
    seat. *)
Definition Ledger (s : MemStorage) : Prop :=
  (∀ rideId ride, rides s !! rideId = Some ride →
     Ride.totalSeats ride - Ride.availableSeats ride = bookedSeats rideId (bookings s)
     ∧ 0 ≤ Ride.availableSeats ride)
  ∧ map_Forall (λ _ b, 1 ≤ Booking.seatsBooked b) (bookings s).

(** ** Sample requests *)

Definition rideOffer (seats : Z) (price : Q) : InsertRide.t :=
  InsertRide.mk "Campus" "Airport" "2025-01-10" "09:30" "car" seats price
    "https://wa.me/911234567890" None.

(** Scenario A of the design document: a ride of two seats at 100 a head,
    booked seat by seat by two users. *)
Definition scenarioA : list Op :=
  [ CreateRide "alice" (rideOffer 2 100) "ride-1" "2025-01-01T08:00:00.000Z";
    CreateBooking "bob" "ride-1" 1 "booking-1" "2025-01-02T08:00:00.000Z";
    CreateBooking "carol" "ride-1" 1 "booking-2" "2025-01-03T08:00:00.000Z" ].

(** Scenario B: the first booking of scenario A is cancelled. *)
Definition scenarioB : list Op :=
  scenarioA ++ [ CancelBooking "bob" "booking-1" "2025-01-04T08:00:00.000Z" ].

(** The creator offers two seats and then edits the number of seats left
    to [seats], no booking having been made. *)
Definition seatsEdited (seats : Z) : list Op :=
  [ CreateRide "alice" (rideOffer 2 100) "ride-1" "2025-01-01T08:00:00.000Z";
    UpdateRide "ride-1" "alice" (RidePatch.seats seats) ].

(** A ride of one seat that its only possible booking has filled. *)
Definition soldOut : list Op :=
  [ CreateRide "alice" (rideOffer 1 100) "ride-1" "2025-01-01T08:00:00.000Z";
    CreateBooking "bob" "ride-1" 1 "booking-1" "2025-01-02T08:00:00.000Z" ].

(** A ride of two seats with one booking, which the creator marks FULL by
    hand while a seat is still free. *)
Definition manualFull : list Op :=
  [ CreateRide "alice" (rideOffer 2 100) "ride-1" "2025-01-01T08:00:00.000Z";
    CreateBooking "bob" "ride-1" 1 "booking-1" "2025-01-02T08:00:00.000Z";
    UpdateRide "ride-1" "alice" (RidePatch.ofStatus "FULL") ].

(** The holder of the one booking of a ride closed by hand cancels. *)
Definition manualFullThenCancel : list Op :=
  manualFull ++ [ CancelBooking "bob" "booking-1" "2025-01-03T08:00:00.000Z" ].

(** The creator cancels a ride of one seat; a user then books the seat,
    and then cancels the booking. *)
Definition cancelledRide : list Op :=
  [ CreateRide "alice" (rideOffer 1 100) "ride-1" "2025-01-01T08:00:00.000Z";
    UpdateRide "ride-1" "alice" (RidePatch.ofStatus "CANCELLED") ].

Definition cancelledRideBooked : list Op :=
  cancelledRide
  ++ [ CreateBooking "bob" "ride-1" 1 "booking-1" "2025-01-02T08:00:00.000Z" ].

Definition cancelledRideBookedThenFreed : list Op :=
  cancelledRideBooked ++ [ CancelBooking "bob" "booking-1" "2025-01-03T08:00:00.000Z" ].

(** A booking whose ride the creator has deleted. *)
Definition rideDeleted : list Op :=
  [ CreateRide "alice" (rideOffer 2 100) "ride-1" "2025-01-01T08:00:00.000Z";
    CreateBooking "bob" "ride-1" 1 "booking-1" "2025-01-02T08:00:00.000Z";
    DeleteRide "ride-1" "alice" ].

(** ** The failure of a step *)

(** The error kind of the reply to an operation, [None] when the handler
    answers with a 2xx body. *)
Definition stepError (op : Op) (s : MemStorage) : option ErrorKind :=
  match op with
  | CreateRide creatorId input uuid now =>
      errorKind (postApiRides creatorId input uuid now s).1
  | UpdateRide rideId callerId patch => errorKind (patchApiRidesId callerId rideId patch s).1
  | DeleteRide rideId callerId => errorKind (deleteApiRidesId callerId rideId s).1
  | CreateBooking bookerId rideId seatsBooked uuid now =>
      errorKind (postApiBookings bookerId rideId seatsBooked uuid now s).1
  | CancelBooking callerId bookingId now =>
      errorKind (deleteApiBookingsId callerId bookingId now s).1
  end.

(** ** The life of a booking *)

(** [laterOf b b']: [b'] is what a stored booking [b] may have become: the
    same record, or the record CANCELLED with [cancelledAt] set when [b] was
    BOOKED; the other six fields are those of [b]. *)
Definition laterOf (b b' : Booking.t) : Prop :=
  Booking.id b' = Booking.id b
  ∧ Booking.rideId b' = Booking.rideId b
  ∧ Booking.userId b' = Booking.userId b
  ∧ Booking.seatsBooked b' = Booking.seatsBooked b
  ∧ Booking.totalPrice b' = Booking.totalPrice b
  ∧ Booking.bookedAt b' = Booking.bookedAt b
  ∧ (b' = b
     ∨ (Booking.status b = BOOKED ∧ Booking.status b' = CANCELLED
        ∧ is_Some (Booking.cancelledAt b'))).

(** ** Users and sessions (server/storage.ts, server/routes.ts)

    The user table is the third map of [MemStorage] and the session table
    a map of routes.ts.  No ride or booking handler writes to either, so
    they are kept beside the store, in [Server].  [getUserByEmail] takes
    the first user in insertion order, so the user table is the list of its
    entries in that order. *)

Module User.
Record t : Type := mk {
  id : string;
  name : string;
  email : string;
  avatar : option string;
  createdAt : string
}.
End User.

Module InsertUser.
Record t : Type := mk {
  name : string;
  email : string;
  avatar : option string
}.
End InsertUser.

(** [Map.prototype.set] on the entries of a map in insertion order: a key
    that is present keeps its place, a new one goes last. *)
Fixpoint mapSet {V} (key : string) (value : V) (entries : list (string * V))
    : list (string * V) :=
  match entries with
  | [] => [(key, value)]
  | (k, v) :: entries =>
      if String.eqb k key then (key, value) :: entries
      else (k, v) :: mapSet key value entries
  end.

(** [Map.prototype.get] *)
Fixpoint mapGet {V} (key : string) (entries : list (string * V)) : option V :=
  match entries with
  | [] => None
  | (k, v) :: entries => if String.eqb k key then Some v else mapGet key entries
  end.

Record Server : Type := mkServer {
  db : MemStorage;
  users : list (string * User.t);
  sessions : gmap string string
}.

(** [insertUserSchema]; [isEmail] is zod's [.email()] test. *)
Definition insertUserSchema (isEmail : string → bool) (v : InsertUser.t) : list string :=
  issue (String.length (InsertUser.name v) <? 2)%nat "Name must be at least 2 characters"
  ++ issue (negb (isEmail (InsertUser.email v))) "Invalid email address".

Definition getUser (id : string) (sv : Server) : option User.t :=
  mapGet id (users sv).

Definition getUserByEmail (email : string) (sv : Server) : option User.t :=
  find (λ user, String.eqb (User.email user) email) (users sv).*2.

(** The [user] object literal of [createUser]. *)
Definition newUser (insertUser : InsertUser.t) (uuid now : string) : User.t :=
  {| User.id := uuid;
     User.name := InsertUser.name insertUser;
     User.email := InsertUser.email insertUser;
     User.avatar := InsertUser.avatar insertUser;
     User.createdAt := now |}.

Definition createUser (insertUser : InsertUser.t) (uuid now : string) (sv : Server)
    : User.t * Server :=
  let user := newUser insertUser uuid now in
  (user, mkServer (db sv) (mapSet uuid user (users sv)) (sessions sv)).

(** A string that passes [if (x)]: present and not empty. *)
Definition truthy (x : option string) : option string :=
  match x with
  | Some "" => None
  | other => other
  end.

(** [getCurrentUser]; [header] is the request's [x-session-id]. *)
Definition getCurrentUser (header : option string) (sv : Server) : option string :=
  match truthy header with
  | None => None
  | Some sessionId => truthy (sessions sv !! sessionId)
  end.

(** [requireAuth] in front of a handler of the store. *)
Definition requireAuth {A} (header : option string) (handler : string → M (Reply A))
    (sv : Server) : Reply A * Server :=
  match getCurrentUser header sv with
  | None => (JsonError 401 "Unauthorized", sv)
  | Some userId =>
      let (reply, db') := handler userId (db sv) in
      (reply, mkServer db' (users sv) (sessions sv))
  end.

(** POST /api/auth/login; [uuid] is the id [createUser] draws, [sessionId]
    the one the handler draws. *)
Definition postApiAuthLogin (isEmail : string → bool) (email name : option string)
    (uuid now sessionId : string) (sv : Server) : Reply (User.t * string) * Server :=
  match truthy email, truthy name with
  | Some email, Some name =>
      let login (user : User.t) (sv : Server) :=
        (Json 200 (user, sessionId),
         mkServer (db sv) (users sv) (<[sessionId := User.id user]> (sessions sv))) in
      match getUserByEmail email sv with
      | Some user => login user sv
      | None =>
          let validatedData := InsertUser.mk name email None in
          match insertUserSchema isEmail validatedData with
          | [] => let (user, sv) := createUser validatedData uuid now sv in login user sv
          | issues => (ZodError issues, sv)
          end
      end
  | _, _ => (JsonError 400 "Email and name are required", sv)
  end.

(** GET /api/auth/me *)
Definition getApiAuthMe (header : option string) (sv : Server) : Reply User.t :=
  match getCurrentUser header sv with
  | None => JsonError 401 "Not authenticated"
  | Some userId =>
      match getUser userId sv with
      | None => JsonError 404 "User not found"
      | Some user => Json 200 user
      end
  end.

(** POST /api/auth/logout *)
Definition postApiAuthLogout (header : option string) (sv : Server) : Reply unit * Server :=
  (Json 200 tt,
   match truthy header with
   | Some sessionId => mkServer (db sv) (users sv) (delete sessionId (sessions sv))
   | None => sv
   end).

(** The user table as [createUser] fills it: every user is stored once,
    under its own id, and no two users share an email. *)
Definition UsersOk (entries : list (string * User.t)) : Prop :=
  NoDup entries.*1
  ∧ Forall (λ entry, User.id entry.2 = entry.1) entries
  ∧ NoDup (User.email <$> entries.*2).

(** Requests to the authentication routes. *)
Inductive AuthOp : Type :=
| Login (email name : option string) (uuid now sessionId : string)
| Logout (header : option string).

Definition authStep (isEmail : string → bool) (op : AuthOp) (sv : Server) : Server :=
  match op with
  | Login email name uuid now sessionId =>
      (postApiAuthLogin isEmail email name uuid now sessionId sv).2
  | Logout header => (postApiAuthLogout header sv).2
  end.

Definition authRun (isEmail : string → bool) (ops : list AuthOp) (sv : Server) : Server :=
  foldl (λ sv op, authStep isEmail op sv) sv ops.

(** The server at start-up. *)
Definition server : Server := mkServer storage [] ∅.

(** A stand-in for zod's email test in the examples: the address has an
    at sign. *)
Definition hasAt (s : string) : bool :=
  match String.index 0 "@" s with
  | Some _ => true
  | None => false
  end.

(** ** Listings (server/storage.ts, server/routes.ts)

    [Array.from(map.values())] lists the values of a [Map] in insertion
    order, which [gmap] does not record: [arrayFrom] lists the same values
    in the order of the keys.  The statements about the listings are about
    what is listed and about the order by time, neither of which depends on
    that order; the relative order of entries with equal time stamps is not
    modelled.  [getTime] stands for [new Date(s).getTime()] (every stamp is
    taken to parse), [toLowerCase] for [String.prototype.toLowerCase]. *)

Definition arrayFrom {A} (m : gmap string A) : list A := (map_to_list m).*2.

Fixpoint sortInsert {A} (compare : A → A → Z) (x : A) (sorted : list A) : list A :=
  match sorted with
  | [] => [x]
  | y :: rest => if compare x y <=? 0 then x :: sorted else y :: sortInsert compare x rest
  end.

(** [Array.prototype.sort(compare)]: a stable sort, [a] before [b] when
    [compare(a, b)] is negative. *)
Definition arraySort {A} (compare : A → A → Z) (l : list A) : list A :=
  foldr (sortInsert compare) [] l.

(** [String.prototype.includes] *)
Fixpoint includes (s searchString : string) : bool :=
  String.prefix searchString s
  || match s with
     | EmptyString => false
     | String _ rest => includes rest searchString
     end.

Module RideFilters.
Record t : Type := mk {
  from : option string;
  to : option string;
  date : option string;
  vehicleType : option string
}.
End RideFilters.

Definition getBookingsByRide (rideId : string) (s : MemStorage) : list Booking.t :=
  List.filter (λ b, String.eqb (Booking.rideId b) rideId) (arrayFrom (bookings s)).

Definition isBooked (b : Booking.t) : bool :=
  match Booking.status b with
  | BOOKED => true
  | CANCELLED => false
  end.

Section Listings.
Variable getTime : string → Z.
Variable toLowerCase : string → string.

(** [(a, b) => new Date(b.stamp).getTime() - new Date(a.stamp).getTime()] *)
Definition newestFirst {A} (stamp : A → string) (a b : A) : Z :=
  getTime (stamp b) - getTime (stamp a).

(** [a] is listed before [b]: it is not older. *)
Definition notOlder {A} (stamp : A → string) (a b : A) : Prop :=
  getTime (stamp b) ≤ getTime (stamp a).

Definition getAllRides (filters : option RideFilters.t) (s : MemStorage) : list Ride.t :=
  let rides := arraySort (newestFirst Ride.createdAt) (arrayFrom (rides s)) in
  match filters with
  | None => rides
  | Some filters =>
      let rides :=
        match truthy (RideFilters.from filters) with
        | Some from =>
            List.filter
              (λ r, includes (toLowerCase (Ride.from r)) (toLowerCase from)) rides
        | None => rides
        end in
      let rides :=
        match truthy (RideFilters.to filters) with
        | Some to =>
            List.filter (λ r, includes (toLowerCase (Ride.to r)) (toLowerCase to)) rides
        | None => rides
        end in
      let rides :=
        match truthy (RideFilters.date filters) with
        | Some date => List.filter (λ r, String.eqb (Ride.date r) date) rides
        | None => rides
        end in
      match truthy (RideFilters.vehicleType filters) with
      | Some vehicleType =>
          if String.eqb vehicleType "all" then rides
          else List.filter (λ r, String.eqb (Ride.vehicleType r) vehicleType) rides
      | None => rides
      end
  end.

Definition getRidesByCreator (creatorId : string) (s : MemStorage) : list Ride.t :=
  arraySort (newestFirst Ride.createdAt)
    (List.filter (λ r, String.eqb (Ride.creatorId r) creatorId) (arrayFrom (rides s))).

Definition getBookingsByUser (userId : string) (s : MemStorage) : list Booking.t :=
  arraySort (newestFirst Booking.bookedAt)
    (List.filter (λ b, String.eqb (Booking.userId b) userId) (arrayFrom (bookings s))).

(** The [ride] member GET /api/bookings/my gives a booking: the ride
    with its creator's profile, or [null] when the ride is not stored. *)
Definition rideOf (booking : Booking.t) (sv : Server) : option (Ride.t * option User.t) :=
  match rides (db sv) !! Booking.rideId booking with
  | Some ride => Some (ride, getUser (Ride.creatorId ride) sv)
  | None => None
  end.

(** GET /api/bookings/my, behind [requireAuth]. *)
Definition getApiBookingsMy (userId : string) (sv : Server)
    : Reply (list (Booking.t * option (Ride.t * option User.t))) :=
  Json 200
    (map (λ booking, (booking, rideOf booking sv)) (getBookingsByUser userId (db sv))).
End Listings.

(** ** What a seat update keeps *)

(** [sameButSeats r r']: [r'] is [r] up to [availableSeats] and
    [status]. *)
Definition sameButSeats (r r' : Ride.t) : Prop :=
  Ride.id r' = Ride.id r
  ∧ Ride.creatorId r' = Ride.creatorId r
  ∧ Ride.from r' = Ride.from r
  ∧ Ride.to r' = Ride.to r
  ∧ Ride.date r' = Ride.date r
  ∧ Ride.time r' = Ride.time r
  ∧ Ride.vehicleType r' = Ride.vehicleType r
  ∧ Ride.totalSeats r' = Ride.totalSeats r
  ∧ Ride.pricePerHead r' = Ride.pricePerHead r
  ∧ Ride.whatsappLink r' = Ride.whatsappLink r
  ∧ Ride.additionalMsg r' = Ride.additionalMsg r
  ∧ Ride.createdAt r' = Ride.createdAt r.

(** Stand-ins for the two built-ins in the examples: the digits of a time
    stamp read as a number (an order embedding of ISO stamps of one format
    and zone), and lower case for the letters A to Z. *)
Definition isoDigits (stamp : string) : Z :=
  fold_left
    (λ acc c,
       let n := Z.of_nat (Ascii.nat_of_ascii c) in
       if (48 <=? n) && (n <=? 57) then acc * 10 + (n - 48) else acc)
    (String.list_ascii_of_string stamp) 0.

Definition asciiLower (s : string) : string :=
  String.string_of_list_ascii
    (map (λ c,
            let n := Ascii.nat_of_ascii c in
            if ((65 <=? n) && (n <=? 90))%nat then Ascii.ascii_of_nat (n + 32) else c)
       (String.list_ascii_of_string s)).

(** ** The range of exact seat arithmetic *)

(** [Number.MAX_SAFE_INTEGER].  Every integer from 0 up to it is a
    binary64 number, and the sum or difference of two such integers, when
    it is in that range again, is computed without rounding by the code's
    [+] and [-].  Above it the code rounds to the nearest binary64 number
    ([2^53 + 1] is stored as [2^53]). *)
Definition maxSafeInteger : Z := 2 ^ 53 - 1.

(** The seats a [CreateRide] offers are within the exact range. *)
Definition safeSeats (op : Op) (s : MemStorage) : bool :=
  match op with
  | CreateRide _ input _ _ => InsertRide.availableSeats input <=? maxSafeInteger
  | _ => true
  end.

(** * Properties *)

(** ** The ledger of booked seats *)

Section BookedSeats.
Implicit Types (bs : gmap string Booking.t) (b : Booking.t).

Lemma holds_comm rideId b1 b2 (y : Z) :
  holds rideId b1 + (holds rideId b2 + y) = holds rideId b2 + (holds rideId b1 + y).
Proof. lia. Qed.

Lemma bookedSeats_insert_new rideId k b bs :
  bs !! k = None →
  bookedSeats rideId (<[k := b]> bs) = holds rideId b + bookedSeats rideId bs.
Proof.
  intros Hk. unfold bookedSeats.
  rewrite map_fold_insert_L; [done | intros; apply holds_comm | done].
Qed.

Lemma bookedSeats_lookup rideId k b bs :
  bs !! k = Some b →
  bookedSeats rideId bs = holds rideId b + bookedSeats rideId (delete k bs).
Proof.
  intros Hk. unfold bookedSeats.
  rewrite (map_fold_delete_L _ _ k b bs); [done | intros; apply holds_comm | done].
Qed.

Lemma bookedSeats_insert_over rideId k b b' bs :
  bs !! k = Some b →
  bookedSeats rideId (<[k := b']> bs)
  = holds rideId b' - holds rideId b + bookedSeats rideId bs.
Proof.
  intros Hk. rewrite (bookedSeats_lookup rideId k b bs Hk).
  rewrite <- (insert_delete_eq bs k b').
  rewrite bookedSeats_insert_new by apply lookup_delete_eq. lia.
Qed.

Lemma bookedSeats_unreferenced rideId bs :
  map_Forall (λ _ b, Booking.rideId b ≠ rideId) bs → bookedSeats rideId bs = 0.
Proof.
  unfold bookedSeats.
  apply (map_fold_weak_ind
           (λ r m, map_Forall (λ _ b, Booking.rideId b ≠ rideId) m → r = 0)).
  - done.
  - intros k b m r Hk IH Hall.
    apply map_Forall_insert in Hall as [Hb Hall]; [|done].
    rewrite (IH Hall). unfold holds.
    destruct (Booking.status b); [|done].
    apply String.eqb_neq in Hb. by rewrite Hb.
Qed.

Lemma bookedSeats_nonneg rideId bs :
  map_Forall (λ _ b, 1 ≤ Booking.seatsBooked b) bs → 0 ≤ bookedSeats rideId bs.
Proof.
  unfold bookedSeats.
  apply (map_fold_weak_ind
           (λ r m, map_Forall (λ _ b, 1 ≤ Booking.seatsBooked b) m → 0 ≤ r)).
  - done.
  - intros k b m r Hk IH Hall.
    apply map_Forall_insert in Hall as [Hb Hall]; [|done].
    specialize (IH Hall). unfold holds.
    destruct (Booking.status b); [destruct (String.eqb _ _)|]; lia.
Qed.
End BookedSeats.

(** ** What each handler does to the store *)

Section Outcomes.
Implicit Types (s : MemStorage) (ride : Ride.t) (booking : Booking.t).

Lemma updateRide_seats rideId n ride s :
  rides s !! rideId = Some ride →
  updateRide rideId (RidePatch.seats n) true s
  = (Some (withSeats ride n), mkStorage (<[rideId := withSeats ride n]> (rides s)) (bookings s)).
Proof. intros Hr. unfold updateRide, bind, getRide. by rewrite Hr. Qed.

(** The derivation touches the status only. *)
Local Ltac derive_cases n :=
  unfold withSeats, deriveStatus; cbn;
  destruct (n <=? 0); [done|]; by destruct (_ && _).

Lemma withSeats_availableSeats ride n : Ride.availableSeats (withSeats ride n) = n.
Proof. derive_cases n. Qed.

Lemma withSeats_totalSeats ride n : Ride.totalSeats (withSeats ride n) = Ride.totalSeats ride.
Proof. derive_cases n. Qed.

Lemma withSeats_pricePerHead ride n :
  Ride.pricePerHead (withSeats ride n) = Ride.pricePerHead ride.
Proof. derive_cases n. Qed.

Lemma postApiBookings_outcome userId rideId seatsBooked uuid now s :
  BookingOutcome userId rideId seatsBooked uuid now s
    (postApiBookings userId rideId seatsBooked uuid now s).
Proof.
  unfold postApiBookings, insertBookingSchema, issue. cbn.
  destruct (seatsBooked <? 1) eqn:Hmin; cbn.
  { by constructor. }
  unfold bind at 1. unfold getRide at 1.
  destruct (rides s !! rideId) as [ride|] eqn:Hride.
  2: { by constructor. }
  destruct (String.eqb (Ride.creatorId ride) userId) eqn:Hcreator.
  { by constructor. }
  destruct (Ride.availableSeats ride <? seatsBooked) eqn:Hseats.
  { by constructor. }
  destruct (String.eqb (Ride.status ride) "FULL") eqn:Hfull.
  { by constructor. }
  cbn. unfold bind at 1. rewrite (updateRide_seats _ _ ride) by exact Hride.
  cbn. rewrite lookup_insert_eq.
  apply booking_accepted; [done| |lia|].
  - by apply String.eqb_neq.
  - by apply String.eqb_neq.
Qed.

Lemma deleteApiBookingsId_outcome userId id now s :
  CancelOutcome userId id now s (deleteApiBookingsId userId id now s).
Proof.
  unfold deleteApiBookingsId, bind at 1, getBooking at 1.
  destruct (bookings s !! id) as [booking|] eqn:Hbooking.
  2: { by constructor. }
  destruct (String.eqb (Booking.userId booking) userId) eqn:Howner; cbn [negb].
  2: { by constructor. }
  apply String.eqb_eq in Howner.
  destruct (Booking.status booking) eqn:Hstatus.
  2: { by constructor. }
  unfold bind at 1, cancelBooking, bind at 1, getBooking. rewrite Hbooking.
  cbn. destruct (rides s !! Booking.rideId booking) as [ride|] eqn:Hride.
  - unfold bind at 1. rewrite (updateRide_seats _ _ ride) by exact Hride.
    unfold ret. cbn [rides bookings]. by apply cancel_restored.
  - by apply cancel_orphaned.
Qed.

Lemma deleteApiBookingsId_accepted userId id now s booking :
  bookings s !! id = Some booking →
  Booking.userId booking = userId →
  Booking.status booking = BOOKED →
  deleteApiBookingsId userId id now s
  = (Json 200 (Some (cancelledBooking booking now)),
     mkStorage
       match rides s !! Booking.rideId booking with
       | Some ride =>
           <[Booking.rideId booking :=
               withSeats ride (Ride.availableSeats ride + Booking.seatsBooked booking)]>
             (rides s)
       | None => rides s
       end
       (<[id := cancelledBooking booking now]> (bookings s))).
Proof.
  intros Hbooking Howner Hstatus.
  unfold deleteApiBookingsId, bind at 1, getBooking at 1. rewrite Hbooking.
  apply String.eqb_eq in Howner. rewrite Howner, Hstatus. cbn [negb].
  unfold bind at 1, cancelBooking, bind at 1, getBooking. rewrite Hbooking.
  cbn. destruct (rides s !! Booking.rideId booking) as [ride|] eqn:Hride; [|done].
  unfold bind at 1. by rewrite (updateRide_seats _ _ ride) by exact Hride.
Qed.

Lemma deleteApiBookingsId_cancelled userId id now s booking :
  bookings s !! id = Some booking →
  Booking.userId booking = userId →
  Booking.status booking = CANCELLED →
  deleteApiBookingsId userId id now s = (JsonError 400 "Booking already cancelled", s).
Proof.
  intros Hbooking Howner Hstatus.
  unfold deleteApiBookingsId, bind, getBooking. rewrite Hbooking.
  apply String.eqb_eq in Howner. by rewrite Howner, Hstatus.
Qed.

Lemma postApiRides_outcome userId body uuid now s :
  CreationOutcome userId body uuid now s (postApiRides userId body uuid now s).
Proof.
  unfold postApiRides.
  destruct (insertRideSchema (rideInput body)) as [|i issues] eqn:Hparse.
  - by apply ride_created.
  - by apply ride_rejected.
Qed.

Lemma patchApiRidesId_outcome userId id body s :
  UpdateOutcome userId id body s (patchApiRidesId userId id body s).
Proof.
  unfold patchApiRidesId, bind at 1, getRide at 1.
  destruct (rides s !! id) as [ride|] eqn:Hride.
  2: { by constructor. }
  destruct (String.eqb (Ride.creatorId ride) userId) eqn:Hcreator; cbn [negb].
  2: { by constructor. }
  apply String.eqb_eq in Hcreator.
  unfold bind at 1, updateRide, bind at 1, getRide. rewrite Hride. cbn.
  by apply update_applied.
Qed.

Lemma deleteApiRidesId_outcome userId id s :
  DeletionOutcome userId id s (deleteApiRidesId userId id s).
Proof.
  unfold deleteApiRidesId, bind at 1, getRide at 1.
  destruct (rides s !! id) as [ride|] eqn:Hride.
  2: { by constructor. }
  destruct (String.eqb (Ride.creatorId ride) userId) eqn:Hcreator; cbn [negb].
  2: { by constructor. }
  apply String.eqb_eq in Hcreator.
  by apply (deletion_done _ _ _ ride).
Qed.
End Outcomes.

(** ** What the schemas guarantee *)

Lemma issue_nil failed message : issue failed message = [] → failed = false.
Proof. by destruct failed. Qed.

Lemma insertRideSchema_accepts v :
  insertRideSchema v = [] →
  1 ≤ InsertRide.availableSeats v ∧ (0 <= InsertRide.pricePerHead v)%Q.
Proof.
  unfold insertRideSchema. intros H.
  do 5 (apply app_eq_nil in H as [_ H]).
  apply app_eq_nil in H as [Hseats H].
  apply app_eq_nil in H as [Hprice _].
  apply issue_nil in Hseats, Hprice. split; [lia|].
  apply Qle_bool_iff. by destruct (Qle_bool _ _).
Qed.

Lemma insertRideSchema_rejects v :
  InsertRide.availableSeats v < 1 ∨ (InsertRide.pricePerHead v < 0)%Q →
  insertRideSchema v ≠ [].
Proof.
  intros Hbad Hok. apply insertRideSchema_accepts in Hok as [Hseats Hprice].
  destruct Hbad as [Hbad|Hbad]; [lia|]. by apply Qlt_not_le in Hbad.
Qed.

(** ** The seat ledger is kept by every step that keeps the seat counters *)

Lemma Ledger_storage : Ledger storage.
Proof.
  split; [|apply map_Forall_empty].
  intros rideId ride H. cbn in H. by rewrite lookup_empty in H.
Qed.

Lemma holds_other rideId b : Booking.rideId b ≠ rideId → holds rideId b = 0.
Proof.
  intros Hne. unfold holds. destruct (Booking.status b); [|done].
  apply String.eqb_neq in Hne. by rewrite Hne.
Qed.

Lemma holds_booked b :
  Booking.status b = BOOKED → holds (Booking.rideId b) b = Booking.seatsBooked b.
Proof. intros Hb. unfold holds. by rewrite Hb, String.eqb_refl. Qed.

Lemma holds_cancelled rideId b now : holds rideId (cancelledBooking b now) = 0.
Proof. done. Qed.

Lemma Ledger_booking userId rideId seatsBooked uuid now s :
  bookings s !! uuid = None →
  Ledger s → Ledger (postApiBookings userId rideId seatsBooked uuid now s).2.
Proof.
  intros Hfresh [Hrides Hbookings].
  destruct (postApiBookings_outcome userId rideId seatsBooked uuid now s)
    as [reply _ | ride Hride Hcreator Hseats Hfull booking ride']; [done|].
  split; cbn [snd rides bookings].
  - intros rid r Hr. rewrite bookedSeats_insert_new by done.
    apply lookup_insert_Some in Hr as [[<- <-] | [Hne Hr]].
    + destruct (Hrides _ _ Hride) as [Heq Hpos].
      unfold ride'. rewrite withSeats_availableSeats, withSeats_totalSeats.
      assert (holds rideId booking = seatsBooked) as ->
        by exact (holds_booked booking eq_refl).
      lia.
    + destruct (Hrides _ _ Hr) as [Heq Hpos].
      by rewrite holds_other.
  - apply map_Forall_insert; [done|]. split; [cbn; lia | done].
Qed.

Lemma Ledger_cancel userId id now s :
  Ledger s → Ledger (deleteApiBookingsId userId id now s).2.
Proof.
  intros [Hrides Hbookings].
  destruct (deleteApiBookingsId_outcome userId id now s)
    as [reply _ | booking ride Hbooking Howner Hstatus Hride ride'
        | booking Hbooking Howner Hstatus Hride]; [done|..].
  - split; cbn [snd rides bookings].
    + intros rid r Hr.
      rewrite (bookedSeats_insert_over _ _ booking) by done.
      rewrite holds_cancelled.
      pose proof (map_Forall_lookup_1 _ _ _ _ Hbookings Hbooking) as Hone.
      apply lookup_insert_Some in Hr as [[<- <-] | [Hne Hr]].
      * destruct (Hrides _ _ Hride) as [Heq Hpos].
        unfold ride'. rewrite withSeats_availableSeats, withSeats_totalSeats.
        rewrite holds_booked by done. cbn in Hone. lia.
      * destruct (Hrides _ _ Hr) as [Heq Hpos].
        by rewrite holds_other.
    + apply map_Forall_insert_2; [|done].
      exact (map_Forall_lookup_1 _ _ _ _ Hbookings Hbooking).
  - split; cbn [snd rides bookings].
    + intros rid r Hr.
      rewrite (bookedSeats_insert_over _ _ booking) by done.
      rewrite holds_cancelled.
      destruct (Hrides _ _ Hr) as [Heq Hpos].
      rewrite holds_other; [done | congruence].
    + apply map_Forall_insert_2; [|done].
      exact (map_Forall_lookup_1 _ _ _ _ Hbookings Hbooking).
Qed.

Lemma Ledger_creation userId body uuid now s :
  rides s !! uuid = None →
  map_Forall (λ _ b, Booking.rideId b ≠ uuid) (bookings s) →
  Ledger s → Ledger (postApiRides userId body uuid now s).2.
Proof.
  intros Hfresh Hunref [Hrides Hbookings].
  destruct (postApiRides_outcome userId body uuid now s)
    as [issues _ _ | Hparse ride]; [done|].
  split; cbn [snd rides bookings]; [|done].
  intros rid r Hr.
  apply lookup_insert_Some in Hr as [[<- <-] | [Hne Hr]]; [|by apply Hrides].
  apply insertRideSchema_accepts in Hparse as [Hseats _].
  rewrite bookedSeats_unreferenced by done. cbn in *. lia.
Qed.

Lemma Ledger_update userId id body s :
  keepsSeats (UpdateRide id userId body) s = true →
  Ledger s → Ledger (patchApiRidesId userId id body s).2.
Proof.
  intros Hkeeps [Hrides Hbookings].
  destruct (patchApiRidesId_outcome userId id body s)
    as [reply _ | ride Hride Hcreator]; [done|].
  split; cbn [snd rides bookings]; [|done].
  intros rid r Hr.
  apply lookup_insert_Some in Hr as [[<- <-] | [Hne Hr]]; [|by apply Hrides].
  cbn in Hkeeps. rewrite Hride in Hkeeps.
  apply andb_prop in Hkeeps as [Havail Htotal].
  apply bool_decide_eq_true in Havail, Htotal.
  cbn. rewrite Havail, Htotal. by apply Hrides.
Qed.

Lemma Ledger_deletion userId id s :
  Ledger s → Ledger (deleteApiRidesId userId id s).2.
Proof.
  intros [Hrides Hbookings].
  destruct (deleteApiRidesId_outcome userId id s)
    as [reply _ | ride Hride Hcreator]; [done|].
  split; cbn [snd rides bookings]; [|done].
  intros rid r Hr. apply lookup_delete_Some in Hr as [_ Hr]. by apply Hrides.
Qed.

Lemma Ledger_step op s :
  uuidFresh op s = true → keepsSeats op s = true → Ledger s → Ledger (step op s).
Proof.
  intros Hfresh Hkeeps HL. destruct op; cbn [step].
  - cbn in Hfresh. apply andb_prop in Hfresh as [H1 H2].
    apply bool_decide_eq_true in H1, H2. by apply Ledger_creation.
  - by apply Ledger_update.
  - by apply Ledger_deletion.
  - cbn in Hfresh. apply bool_decide_eq_true in Hfresh. by apply Ledger_booking.
  - by apply Ledger_cancel.
Qed.

Lemma Ledger_run ops : ∀ s,
  allSteps uuidFresh ops s = true → allSteps keepsSeats ops s = true →
  Ledger s → Ledger (run ops s).
Proof.
  induction ops as [|op ops IH]; intros s Hfresh Hkeeps HL; [done|].
  cbn in *. apply andb_prop in Hfresh as [Hf Hfresh].
  apply andb_prop in Hkeeps as [Hk Hkeeps].
  apply IH; [done..|]. by apply Ledger_step.
Qed.

(** ** The scenarios of the design document, run on the model *)

Example scenarioA_full :
  (λ ride, (Ride.availableSeats ride, Ride.status ride))
    <$> rides (run scenarioA storage) !! "ride-1" = Some (0, "FULL")
  ∧ Booking.totalPrice <$> bookings (run scenarioA storage) !! "booking-1"
    = Some (inject_Z 1 * 100)%Q
  ∧ (postApiBookings "dave" "ride-1" 1 "booking-3" "2025-01-04T08:00:00.000Z"
       (run scenarioA storage)).1
    = JsonError 400 "Not enough seats available".
Proof. repeat split; vm_compute; reflexivity. Qed.

Example scenarioB_reopened :
  (λ ride, (Ride.availableSeats ride, Ride.status ride))
    <$> rides (run scenarioB storage) !! "ride-1" = Some (1, "OPEN").
Proof. vm_compute; reflexivity. Qed.

Example scenarioC_own_ride :
  (postApiBookings "alice" "ride-1" 1 "booking-3" "2025-01-04T08:00:00.000Z"
     (run scenarioB storage)).1
  = JsonError 400 "Cannot book your own ride".
Proof. vm_compute; reflexivity. Qed.

(** ** Seat accounting *)

(** The seat counts of a run stay in the range of exact arithmetic. *)
Lemma totalSeats_safe_step op s :
  safeSeats op s = true →
  keepsSeats op s = true →
  (∀ rideId ride, rides s !! rideId = Some ride → Ride.totalSeats ride ≤ maxSafeInteger) →
  ∀ rideId ride,
    rides (step op s) !! rideId = Some ride → Ride.totalSeats ride ≤ maxSafeInteger.
Proof.
  intros Hsafe Hkeeps Hall rid r. destruct op; cbn [step].
  - destruct (postApiRides_outcome creatorId input uuid now s)
      as [issues _ _ | Hparse ride]; cbn [snd rides]; [exact (Hall rid r)|].
    intros [[<- <-] | [_ Hr]]%lookup_insert_Some; [|by apply (Hall rid)].
    cbn in *. lia.
  - destruct (patchApiRidesId_outcome callerId rideId patch s)
      as [reply _ | ride Hride _]; cbn [snd rides]; [exact (Hall rid r)|].
    intros [[<- <-] | [_ Hr]]%lookup_insert_Some; [|by apply (Hall rid)].
    cbn in Hkeeps. rewrite Hride in Hkeeps.
    apply andb_prop in Hkeeps as [_ Htotal]. apply bool_decide_eq_true in Htotal.
    cbn. rewrite Htotal. by apply (Hall rideId).
  - destruct (deleteApiRidesId_outcome callerId rideId s)
      as [reply _ | ride _ _]; cbn [snd rides]; [exact (Hall rid r)|].
    intros [_ Hr]%lookup_delete_Some. by apply (Hall rid).
  - destruct (postApiBookings_outcome bookerId rideId seatsBooked uuid now s)
      as [reply _ | ride Hride _ _ _ booking ride']; cbn [snd rides]; [exact (Hall rid r)|].
    intros [[<- <-] | [_ Hr]]%lookup_insert_Some; [|by apply (Hall rid)].
    unfold ride'. rewrite withSeats_totalSeats. by apply (Hall rideId).
  - destruct (deleteApiBookingsId_outcome callerId bookingId now s)
      as [reply _ | booking ride _ _ _ Hride ride' | booking _ _ _ _];
      cbn [snd rides]; [exact (Hall rid r)| |exact (Hall rid r)].
    intros [[<- <-] | [_ Hr]]%lookup_insert_Some; [|by apply (Hall rid)].
    unfold ride'. rewrite withSeats_totalSeats. by apply (Hall (Booking.rideId booking)).
Qed.

Lemma seats_stay_safe ops : ∀ s,
  allSteps uuidFresh ops s = true →
  allSteps keepsSeats ops s = true →
  allSteps safeSeats ops s = true →
  Ledger s →
  (∀ rideId ride, rides s !! rideId = Some ride → Ride.totalSeats ride ≤ maxSafeInteger) →
  ∀ rideId ride,
    rides (run ops s) !! rideId = Some ride →
    0 ≤ Ride.availableSeats ride ≤ Ride.totalSeats ride
    ∧ Ride.totalSeats ride ≤ maxSafeInteger.
Proof.
  induction ops as [|op ops IH]; intros s Hfresh Hkeeps Hsafe HL Hall rideId ride Hride.
  - cbn in Hride. destruct HL as [Hrides Hbookings].
    destruct (Hrides rideId ride Hride) as [Heq Hpos].
    pose proof (bookedSeats_nonneg rideId _ Hbookings).
    pose proof (Hall rideId ride Hride). lia.
  - cbn [allSteps run] in *. apply andb_prop in Hfresh as [Hf Hfresh].
    apply andb_prop in Hkeeps as [Hk Hkeeps]. apply andb_prop in Hsafe as [Hs Hsafe].
    refine (IH (step op s) Hfresh Hkeeps Hsafe _ _ rideId ride Hride).
    + by apply Ledger_step.
    + by apply totalSeats_safe_step.
Qed.

(** C1, as amended.  In every store reached from the empty one by
    CreateRide with at most [maxSafeInteger] (2^53 - 1) seats,
    CreateBooking, CancelBooking, DeleteRide and by UpdateRide calls whose
    patch leaves [availableSeats] and [totalSeats] at their current
    values, every existing ride has [totalSeats - availableSeats] equal to
    the sum of [seatsBooked] over the BOOKED bookings that reference it,
    and [availableSeats] is not negative.  (By [seats_stay_safe] every
    seat count of such a run is between 0 and [maxSafeInteger], where the
    code's binary64 sums and differences are those of [Z].) *)
Theorem seat_ledger_invariant (ops : list Op) :
  allSteps uuidFresh ops storage = true →
  allSteps keepsSeats ops storage = true →
  allSteps safeSeats ops storage = true →
  ∀ rideId ride,
    rides (run ops storage) !! rideId = Some ride →
    Ride.totalSeats ride - Ride.availableSeats ride
    = bookedSeats rideId (bookings (run ops storage))
    ∧ 0 ≤ Ride.availableSeats ride.
Proof.
  intros Hfresh Hkeeps _.
  by destruct (Ledger_run ops storage Hfresh Hkeeps Ledger_storage) as [Hrides _].
Qed.

Lemma seat_ledger_invariant_witness :
  allSteps uuidFresh scenarioB storage = true
  ∧ allSteps keepsSeats scenarioB storage = true
  ∧ allSteps safeSeats scenarioB storage = true
  ∧ ∃ ride,
      rides (run scenarioB storage) !! "ride-1" = Some ride
      ∧ Ride.totalSeats ride = 2
      ∧ Ride.availableSeats ride = 1
      ∧ Ride.totalSeats ride - Ride.availableSeats ride
        = bookedSeats "ride-1" (bookings (run scenarioB storage))
      ∧ 0 ≤ Ride.availableSeats ride.
Proof.
  split; [vm_compute; reflexivity|]. split; [vm_compute; reflexivity|].
  split; [vm_compute; reflexivity|].
  eexists. split; [vm_compute; reflexivity|].
  split; [reflexivity|]. split; [reflexivity|].
  apply (seat_ledger_invariant scenarioB); vm_compute; reflexivity.
Defined.

(** C1 as stated fails: an UpdateRide by the creator that lowers
    [availableSeats] from 2 to 1 on a ride without bookings leaves
    [totalSeats - availableSeats = 1] with no seat booked. *)
Lemma seat_ledger_broken_by_seat_edit :
  allSteps uuidFresh (seatsEdited 1) storage = true
  ∧ ∃ ride,
      rides (run (seatsEdited 1) storage) !! "ride-1" = Some ride
      ∧ Ride.totalSeats ride - Ride.availableSeats ride = 1
      ∧ bookedSeats "ride-1" (bookings (run (seatsEdited 1) storage)) = 0
      ∧ Ride.totalSeats ride - Ride.availableSeats ride
        ≠ bookedSeats "ride-1" (bookings (run (seatsEdited 1) storage)).
Proof.
  split; [vm_compute; reflexivity|].
  eexists. split; [vm_compute; reflexivity|].
  split; [reflexivity|]. split; [reflexivity|]. vm_compute. discriminate.
Qed.

(** C2, as amended.  In every store reached from the empty one by
    CreateRide with at most [maxSafeInteger] (2^53 - 1) seats,
    CreateBooking, CancelBooking, DeleteRide and by UpdateRide calls whose
    patch leaves [availableSeats] and [totalSeats] at their current
    values, every ride has [0 <= availableSeats <= totalSeats]. *)
Theorem seat_bounds_invariant (ops : list Op) :
  allSteps uuidFresh ops storage = true →
  allSteps keepsSeats ops storage = true →
  allSteps safeSeats ops storage = true →
  ∀ rideId ride,
    rides (run ops storage) !! rideId = Some ride →
    0 ≤ Ride.availableSeats ride ≤ Ride.totalSeats ride.
Proof.
  intros Hfresh Hkeeps Hsafe rideId ride Hride.
  refine (proj1 (seats_stay_safe ops storage Hfresh Hkeeps Hsafe Ledger_storage _
                   rideId ride Hride)).
  intros rid r Hr. cbn in Hr. by rewrite lookup_empty in Hr.
Qed.

Lemma seat_bounds_invariant_witness :
  allSteps uuidFresh scenarioA storage = true
  ∧ allSteps keepsSeats scenarioA storage = true
  ∧ allSteps safeSeats scenarioA storage = true
  ∧ ∃ ride,
      rides (run scenarioA storage) !! "ride-1" = Some ride
      ∧ Ride.availableSeats ride = 0
      ∧ Ride.totalSeats ride = 2
      ∧ 0 ≤ Ride.availableSeats ride ≤ Ride.totalSeats ride.
Proof.
  split; [vm_compute; reflexivity|]. split; [vm_compute; reflexivity|].
  split; [vm_compute; reflexivity|].
  eexists. split; [vm_compute; reflexivity|].
  split; [reflexivity|]. split; [reflexivity|].
  apply (seat_bounds_invariant scenarioA) with (rideId := "ride-1");
    vm_compute; reflexivity.
Defined.

(** C2 as stated fails: an UpdateRide by the creator that sets
    [availableSeats] to 5 on a ride of 2 seats is stored as given. *)
Lemma seat_bounds_broken_by_seat_edit :
  allSteps uuidFresh (seatsEdited 5) storage = true
  ∧ ∃ ride,
      rides (run (seatsEdited 5) storage) !! "ride-1" = Some ride
      ∧ Ride.availableSeats ride = 5
      ∧ Ride.totalSeats ride = 2
      ∧ ¬ (0 ≤ Ride.availableSeats ride ≤ Ride.totalSeats ride).
Proof.
  split; [vm_compute; reflexivity|].
  eexists. split; [vm_compute; reflexivity|].
  split; [reflexivity|]. split; [reflexivity|]. cbn. lia.
Qed.

(** ** Booking preconditions *)

(** C3, as amended.  For a CreateBooking call on an existing ride by a
    caller who is not its creator, the seat check comes first: when
    [seatsBooked] exceeds [availableSeats] the call fails with "Not enough
    seats available" (InsufficientCapacity) whatever the ride's status;
    otherwise, when the status is FULL, it fails with "This ride is fully
    booked" (InvalidOperation).  Either way the store is left as it was. *)
Theorem booking_seat_check_then_full_check
    (userId rideId : string) (seatsBooked : Z) (uuid now : string) s ride :
  rides s !! rideId = Some ride →
  Ride.creatorId ride ≠ userId →
  1 ≤ seatsBooked →
  let result := postApiBookings userId rideId seatsBooked uuid now s in
  (Ride.availableSeats ride < seatsBooked →
     result = (JsonError 400 "Not enough seats available", s)
     ∧ errorKind result.1 = Some InsufficientCapacity)
  ∧ (seatsBooked ≤ Ride.availableSeats ride →
     Ride.status ride = "FULL" →
     result = (JsonError 400 "This ride is fully booked", s)
     ∧ errorKind result.1 = Some InvalidOperation).
Proof.
  intros Hride Hcreator Hmin result. subst result.
  unfold postApiBookings, insertBookingSchema, issue. cbn [InsertBooking.seatsBooked].
  replace (seatsBooked <? 1) with false by lia. cbn [app].
  unfold bind, getRide. rewrite Hride.
  apply String.eqb_neq in Hcreator. rewrite Hcreator.
  split.
  - intros Hseats. replace (Ride.availableSeats ride <? seatsBooked) with true by lia.
    split; reflexivity.
  - intros Hseats Hfull.
    replace (Ride.availableSeats ride <? seatsBooked) with false by lia.
    rewrite Hfull. split; reflexivity.
Qed.

Lemma booking_seat_check_then_full_check_witness :
  let s := run manualFull storage in
  ∃ ride,
    rides s !! "ride-1" = Some ride
    ∧ Ride.creatorId ride ≠ "carol"
    ∧ Ride.availableSeats ride = 1
    ∧ Ride.status ride = "FULL"
    ∧ postApiBookings "carol" "ride-1" 2 "booking-2" "2025-01-03T08:00:00.000Z" s
      = (JsonError 400 "Not enough seats available", s)
    ∧ postApiBookings "carol" "ride-1" 1 "booking-2" "2025-01-03T08:00:00.000Z" s
      = (JsonError 400 "This ride is fully booked", s).
Proof.
  intros s. eexists. split; [vm_compute; reflexivity|].
  split; [discriminate|]. split; [reflexivity|]. split; [reflexivity|].
  split.
  - refine (proj1 (proj1 (booking_seat_check_then_full_check
      "carol" "ride-1" 2 "booking-2" "2025-01-03T08:00:00.000Z" s _ _ _ _) _)).
    + vm_compute; reflexivity.
    + discriminate.
    + lia.
    + reflexivity.
  - refine (proj1 (proj2 (booking_seat_check_then_full_check
      "carol" "ride-1" 1 "booking-2" "2025-01-03T08:00:00.000Z" s _ _ _ _) _ _)).
    + vm_compute; reflexivity.
    + discriminate.
    + lia.
    + cbn. lia.
    + reflexivity.
Defined.

(** C3 as stated fails: on a FULL ride with no seat left, a booking by a
    user who is not the creator is turned down by the seat check, not by
    the status check. *)
Lemma full_ride_rejected_by_seat_check :
  let s := run soldOut storage in
  let reply :=
    (postApiBookings "carol" "ride-1" 1 "booking-2" "2025-01-03T08:00:00.000Z" s).1 in
  ∃ ride,
    rides s !! "ride-1" = Some ride
    ∧ Ride.creatorId ride ≠ "carol"
    ∧ Ride.status ride = "FULL"
    ∧ Ride.availableSeats ride = 0
    ∧ reply = JsonError 400 "Not enough seats available"
    ∧ errorKind reply = Some InsufficientCapacity
    ∧ errorKind reply ≠ Some InvalidOperation.
Proof.
  intros s reply. eexists. split; [vm_compute; reflexivity|].
  split; [discriminate|]. split; [reflexivity|]. split; [reflexivity|].
  split; [vm_compute; reflexivity|]. split; [vm_compute; reflexivity|].
  vm_compute. discriminate.
Qed.

(** ** Status derivation *)

(** C4 at its failing input.  After the creator has set the status to FULL
    with one of two seats free, cancelling the one booking stores the ride
    with two seats free and status OPEN: the store reopens a ride that was
    closed by hand. *)
Theorem manual_full_reopened_by_cancellation :
  (Ride.status <$> rides (run manualFull storage) !! "ride-1" = Some "FULL"
   ∧ Ride.availableSeats <$> rides (run manualFull storage) !! "ride-1" = Some 1)
  ∧ Ride.status <$> rides (run manualFullThenCancel storage) !! "ride-1" = Some "OPEN"
  ∧ Ride.availableSeats <$> rides (run manualFullThenCancel storage) !! "ride-1" = Some 2.
Proof. repeat split; vm_compute; reflexivity. Qed.

(** C5 at its failing input.  A ride the creator has set to CANCELLED
    still takes a booking; the booking of its last seat turns the status to
    FULL, and the seat restoration of the cancellation that follows turns
    it to OPEN. *)
Theorem cancelled_ride_reopened_by_seat_changes :
  Ride.status <$> rides (run cancelledRide storage) !! "ride-1" = Some "CANCELLED"
  ∧ Ride.status <$> rides (run cancelledRideBooked storage) !! "ride-1" = Some "FULL"
  ∧ Ride.status <$> rides (run cancelledRideBookedThenFreed storage) !! "ride-1"
    = Some "OPEN".
Proof. repeat split; vm_compute; reflexivity. Qed.

(** One seat update never takes a ride out of CANCELLED into OPEN: the
    derivation leaves the status or sets it to FULL. *)
Lemma withSeats_cancelled ride n :
  Ride.status ride = "CANCELLED" →
  Ride.status (withSeats ride n) = (if n <=? 0 then "FULL" else "CANCELLED").
Proof.
  intros Hstatus. unfold withSeats, deriveStatus. cbn.
  destruct (n <=? 0); [done|]. by rewrite Hstatus.
Qed.

(** ** Cancellation *)

(** C6.  On a BOOKED booking, the owner's first CancelBooking succeeds and
    leaves the booking CANCELLED; a second one is refused with "Booking
    already cancelled" (InvalidOperation) and changes nothing; when the ride
    exists, its [availableSeats] after both calls is the earlier value plus
    the booking's [seatsBooked], added once. *)
Theorem cancel_twice (userId id now now' : string) s booking :
  bookings s !! id = Some booking →
  Booking.userId booking = userId →
  Booking.status booking = BOOKED →
  let first := deleteApiBookingsId userId id now s in
  let second := deleteApiBookingsId userId id now' first.2 in
  first.1 = Json 200 (Some (cancelledBooking booking now))
  ∧ Booking.status <$> bookings first.2 !! id = Some CANCELLED
  ∧ second.1 = JsonError 400 "Booking already cancelled"
  ∧ errorKind second.1 = Some InvalidOperation
  ∧ second.2 = first.2
  ∧ ∀ ride, rides s !! Booking.rideId booking = Some ride →
      Ride.availableSeats <$> rides second.2 !! Booking.rideId booking
      = Some (Ride.availableSeats ride + Booking.seatsBooked booking).
Proof.
  intros Hbooking Howner Hstatus first second. subst second first.
  rewrite (deleteApiBookingsId_accepted _ _ _ _ booking) by done.
  cbn [fst snd].
  rewrite (deleteApiBookingsId_cancelled _ _ _ _ (cancelledBooking booking now))
    by (done || apply lookup_insert_eq).
  cbn [fst snd rides bookings]. rewrite lookup_insert_eq.
  repeat split; try done.
  intros ride Hride. rewrite Hride, lookup_insert_eq. cbn.
  by rewrite withSeats_availableSeats.
Qed.

Lemma cancel_twice_witness :
  let s := run scenarioA storage in
  ∃ booking,
    bookings s !! "booking-1" = Some booking
    ∧ Booking.userId booking = "bob"
    ∧ Booking.status booking = BOOKED
    ∧ Ride.availableSeats <$> rides s !! "ride-1" = Some 0
    ∧ let first := deleteApiBookingsId "bob" "booking-1" "2025-01-04T08:00:00.000Z" s in
      let second :=
        deleteApiBookingsId "bob" "booking-1" "2025-01-05T08:00:00.000Z" first.2 in
      first.1 = Json 200 (Some (cancelledBooking booking "2025-01-04T08:00:00.000Z"))
      ∧ second.1 = JsonError 400 "Booking already cancelled"
      ∧ Ride.availableSeats <$> rides second.2 !! "ride-1" = Some 1.
Proof.
  intros s. eexists. split; [vm_compute; reflexivity|].
  split; [reflexivity|]. split; [reflexivity|]. split; [vm_compute; reflexivity|].
  intros first second.
  destruct (cancel_twice "bob" "booking-1" "2025-01-04T08:00:00.000Z"
              "2025-01-05T08:00:00.000Z" s _
              ltac:(vm_compute; reflexivity) eq_refl eq_refl)
    as (H1 & _ & H3 & _ & _ & H6).
  split; [exact H1|]. split; [exact H3|].
  exact (H6 _ ltac:(vm_compute; reflexivity)).
Defined.

(** C8.  When the owner cancels a BOOKED booking whose ride is no longer
    in the store, the call succeeds: the reply is that booking with status
    CANCELLED and [cancelledAt] set, its other six fields as they were;
    the booking is stored so, and the rides are left as they were. *)
Theorem cancel_tolerates_missing_ride (userId id now : string) s booking :
  bookings s !! id = Some booking →
  Booking.userId booking = userId →
  Booking.status booking = BOOKED →
  rides s !! Booking.rideId booking = None →
  ∃ cancelled,
    deleteApiBookingsId userId id now s
    = (Json 200 (Some cancelled), mkStorage (rides s) (<[id := cancelled]> (bookings s)))
    ∧ Booking.status cancelled = CANCELLED
    ∧ Booking.cancelledAt cancelled = Some now
    ∧ Booking.id cancelled = Booking.id booking
    ∧ Booking.rideId cancelled = Booking.rideId booking
    ∧ Booking.userId cancelled = Booking.userId booking
    ∧ Booking.seatsBooked cancelled = Booking.seatsBooked booking
    ∧ Booking.totalPrice cancelled = Booking.totalPrice booking
    ∧ Booking.bookedAt cancelled = Booking.bookedAt booking.
Proof.
  intros Hbooking Howner Hstatus Hride.
  exists (cancelledBooking booking now). split; [|by repeat split].
  rewrite (deleteApiBookingsId_accepted _ _ _ _ booking) by done.
  by rewrite Hride.
Qed.

Lemma cancel_tolerates_missing_ride_witness :
  let s := run rideDeleted storage in
  ∃ booking cancelled,
    bookings s !! "booking-1" = Some booking
    ∧ Booking.userId booking = "bob"
    ∧ Booking.status booking = BOOKED
    ∧ rides s !! Booking.rideId booking = None
    ∧ deleteApiBookingsId "bob" "booking-1" "2025-01-04T08:00:00.000Z" s
      = (Json 200 (Some cancelled),
         mkStorage (rides s) (<[ "booking-1" := cancelled]> (bookings s)))
    ∧ Booking.status cancelled = CANCELLED
    ∧ Booking.cancelledAt cancelled = Some "2025-01-04T08:00:00.000Z"
    ∧ Booking.id cancelled = "booking-1"
    ∧ Booking.rideId cancelled = "ride-1"
    ∧ Booking.userId cancelled = "bob"
    ∧ Booking.seatsBooked cancelled = 1
    ∧ Booking.totalPrice cancelled = Booking.totalPrice booking
    ∧ Booking.bookedAt cancelled = "2025-01-02T08:00:00.000Z".
Proof.
  intros s. eexists.
  destruct (cancel_tolerates_missing_ride "bob" "booking-1"
              "2025-01-04T08:00:00.000Z" s _
              ltac:(vm_compute; reflexivity) eq_refl eq_refl
              ltac:(vm_compute; reflexivity))
    as (cancelled & Hrun & Hstatus & Hat & Hid & Hride & Huser & Hseats & Hprice & Hbooked).
  exists cancelled. split; [vm_compute; reflexivity|].
  split; [reflexivity|]. split; [reflexivity|]. split; [vm_compute; reflexivity|].
  split; [exact Hrun|]. split; [exact Hstatus|]. split; [exact Hat|].
  split; [exact Hid|]. split; [exact Hride|]. split; [exact Huser|].
  split; [exact Hseats|]. split; [exact Hprice | exact Hbooked].
Defined.

(** C10.  CancelBooking changes no booking but the one it is called on,
    and of that one it keeps [id], [rideId], [userId], [seatsBooked],
    [totalPrice] and [bookedAt]; when the call succeeds, the status is
    CANCELLED and [cancelledAt] is the time of the call. *)
Theorem cancel_frame (userId id now : string) s booking :
  bookings s !! id = Some booking →
  let result := deleteApiBookingsId userId id now s in
  (∀ other, other ≠ id → bookings result.2 !! other = bookings s !! other)
  ∧ ∃ booking',
      bookings result.2 !! id = Some booking'
      ∧ Booking.id booking' = Booking.id booking
      ∧ Booking.rideId booking' = Booking.rideId booking
      ∧ Booking.userId booking' = Booking.userId booking
      ∧ Booking.seatsBooked booking' = Booking.seatsBooked booking
      ∧ Booking.totalPrice booking' = Booking.totalPrice booking
      ∧ Booking.bookedAt booking' = Booking.bookedAt booking
      ∧ (errorKind result.1 = None →
         Booking.status booking' = CANCELLED ∧ Booking.cancelledAt booking' = Some now)
      ∧ (errorKind result.1 ≠ None → booking' = booking).
Proof.
  intros Hbooking result. subst result.
  destruct (deleteApiBookingsId_outcome userId id now s)
    as [reply Hreply | b ride Hb _ _ Hride ride' | b Hb _ _ Hride];
    cbn [fst snd bookings].
  - split; [done|]. exists booking. by repeat split.
  - rewrite Hbooking in Hb. injection Hb as <-.
    split; [intros other Hne; by rewrite lookup_insert_ne|].
    exists (cancelledBooking booking now). rewrite lookup_insert_eq.
    by repeat split.
  - rewrite Hbooking in Hb. injection Hb as <-.
    split; [intros other Hne; by rewrite lookup_insert_ne|].
    exists (cancelledBooking booking now). rewrite lookup_insert_eq.
    by repeat split.
Qed.

Lemma cancel_frame_witness :
  let s := run scenarioA storage in
  let result := deleteApiBookingsId "bob" "booking-1" "2025-01-04T08:00:00.000Z" s in
  (∃ booking, bookings s !! "booking-1" = Some booking)
  ∧ errorKind result.1 = None
  ∧ bookings result.2 !! "booking-2" = bookings s !! "booking-2"
  ∧ Booking.totalPrice <$> bookings result.2 !! "booking-1"
    = Booking.totalPrice <$> bookings s !! "booking-1".
Proof.
  intros s result.
  destruct (cancel_frame "bob" "booking-1" "2025-01-04T08:00:00.000Z" s _
              ltac:(vm_compute; reflexivity))
    as (Hothers & booking' & Hlookup & _ & _ & _ & _ & Hprice & _).
  split; [eexists; vm_compute; reflexivity|].
  split; [vm_compute; reflexivity|].
  split; [apply Hothers; discriminate|].
  subst result. rewrite Hlookup. cbn [fmap option_fmap option_map].
  rewrite Hprice. vm_compute; reflexivity.
Defined.

(** ** Prices *)

(** C7.  The booking a successful CreateBooking returns and stores has
    [totalPrice = seatsBooked * pricePerHead], the price being that of the
    ride as it was read by the call; and whatever store the booking is in
    later, an UpdateRide (any caller, any ride, any patch, a changed
    [pricePerHead] included) leaves the booking as it is. *)
Theorem price_snapshot
    (userId rideId : string) (seatsBooked : Z) (uuid now : string) s ride
    booking updatedRide s' :
  rides s !! rideId = Some ride →
  postApiBookings userId rideId seatsBooked uuid now s
  = (Json 201 (booking, updatedRide), s') →
  Booking.totalPrice booking = (inject_Z seatsBooked * Ride.pricePerHead ride)%Q
  ∧ Booking.seatsBooked booking = seatsBooked
  ∧ bookings s' !! uuid = Some booking
  ∧ ∀ later callerId id patch,
      bookings later !! uuid = Some booking →
      bookings (patchApiRidesId callerId id patch later).2 !! uuid = Some booking.
Proof.
  intros Hride Hrun.
  pose proof (postApiBookings_outcome userId rideId seatsBooked uuid now s) as Hout.
  rewrite Hrun in Hout.
  inversion Hout as [reply Hreply | ride0 Hride0 _ _ _ booking0 ride' [Hb Hr Hs]].
  { by cbn in Hreply. }
  rewrite Hride in Hride0. injection Hride0 as <-.
  cbn [bookings]. rewrite lookup_insert_eq.
  repeat split; try done.
  intros later callerId id patch Hlater.
  by destruct (patchApiRidesId_outcome callerId id patch later).
Qed.

(** The first booking of scenario A, followed by a change of the price
    from 100 to 250 a head. *)
Lemma price_snapshot_witness :
  let s := run [ CreateRide "alice" (rideOffer 2 100) "ride-1" "2025-01-01T08:00:00.000Z" ]
             storage in
  let booked := postApiBookings "bob" "ride-1" 1 "booking-1" "2025-01-02T08:00:00.000Z" s in
  let repriced := patchApiRidesId "alice" "ride-1" (RidePatch.price 250) booked.2 in
  Ride.pricePerHead <$> rides s !! "ride-1" = Some (100 : Q)
  ∧ Ride.pricePerHead <$> rides repriced.2 !! "ride-1" = Some (250 : Q)
  ∧ ∃ booking,
      bookings repriced.2 !! "booking-1" = Some booking
      ∧ Booking.totalPrice booking = (inject_Z 1 * 100)%Q.
Proof.
  intros s booked repriced.
  split; [vm_compute; reflexivity|]. split; [vm_compute; reflexivity|].
  destruct (price_snapshot "bob" "ride-1" 1 "booking-1" "2025-01-02T08:00:00.000Z"
              s _ _ _ _
              ltac:(vm_compute; reflexivity) ltac:(vm_compute; reflexivity))
    as (Hprice & _ & Hstored & Hlater).
  eexists. split; [|exact Hprice].
  apply Hlater. exact Hstored.
Defined.

(** ** Ride creation *)

(** C9.  A ride that CreateRide accepts is stored with [availableSeats]
    and [totalSeats] both equal to the seats of the input and with status
    OPEN; an input with fewer than one seat or with a negative price is
    rejected by the schema and the store is left as it was. *)
Theorem create_ride_postcondition (userId : string) (body : InsertRide.t)
    (uuid now : string) s :
  let result := postApiRides userId body uuid now s in
  (∀ ride, result.1 = Json 201 ride →
     rides result.2 !! uuid = Some ride
     ∧ Ride.availableSeats ride = Ride.totalSeats ride
     ∧ Ride.totalSeats ride = InsertRide.availableSeats body
     ∧ Ride.status ride = "OPEN"
     ∧ 1 ≤ Ride.totalSeats ride
     ∧ (0 <= Ride.pricePerHead ride)%Q)
  ∧ (InsertRide.availableSeats body < 1 ∨ (InsertRide.pricePerHead body < 0)%Q →
     (∃ issues, result.1 = ZodError issues)
     ∧ errorKind result.1 = Some InvalidInput
     ∧ result.2 = s).
Proof.
  intros result. subst result.
  destruct (postApiRides_outcome userId body uuid now s)
    as [issues Hparse Hissues | Hparse ride]; cbn [fst snd rides].
  - split; [done|]. intros _. split; [by exists issues | done].
  - split.
    + intros ride0 [= <-]. rewrite lookup_insert_eq.
      apply insertRideSchema_accepts in Hparse as [Hseats Hprice].
      by repeat split.
    + intros Hbad. by apply (insertRideSchema_rejects (rideInput body)) in Hbad.
Qed.

Lemma create_ride_postcondition_witness :
  let accepted :=
    postApiRides "alice" (rideOffer 2 100) "ride-1" "2025-01-01T08:00:00.000Z" storage in
  let noSeat :=
    postApiRides "alice" (rideOffer 0 100) "ride-2" "2025-01-01T08:00:00.000Z" storage in
  let negativePrice :=
    postApiRides "alice" (rideOffer 2 (-1)) "ride-3" "2025-01-01T08:00:00.000Z" storage in
  (∃ ride, accepted.1 = Json 201 ride
           ∧ Ride.availableSeats ride = 2 ∧ Ride.totalSeats ride = 2
           ∧ Ride.status ride = "OPEN")
  ∧ noSeat = (ZodError ["Must have at least 1 seat"], storage)
  ∧ negativePrice = (ZodError ["Price cannot be negative"], storage)
  ∧ errorKind noSeat.1 = Some InvalidInput
  ∧ errorKind negativePrice.1 = Some InvalidInput.
Proof.
  intros accepted noSeat negativePrice. split.
  - eexists. split; [vm_compute; reflexivity|].
    destruct (proj1 (create_ride_postcondition "alice" (rideOffer 2 100) "ride-1"
                       "2025-01-01T08:00:00.000Z" storage) _ eq_refl)
      as (_ & Havail & Htotal & Hstatus & _).
    split; [|split]; [|exact Htotal|exact Hstatus].
    exact (eq_trans Havail Htotal).
  - split; [vm_compute; reflexivity|]. split; [vm_compute; reflexivity|]. split.
    + refine (proj1 (proj2 (proj2 (create_ride_postcondition "alice" (rideOffer 0 100)
        "ride-2" "2025-01-01T08:00:00.000Z" storage) _))).
      left. cbn. lia.
    + refine (proj1 (proj2 (proj2 (create_ride_postcondition "alice" (rideOffer 2 (-1))
        "ride-3" "2025-01-01T08:00:00.000Z" storage) _))).
      right. reflexivity.
Defined.

(** * Further properties of the handlers *)

(** ** Failed requests *)

(** X1.  A request that is answered with an error leaves the store exactly
    as it was, whatever the operation. *)
Theorem rejected_step_keeps_store (op : Op) (s : MemStorage) :
  stepError op s ≠ None → step op s = s.
Proof.
  destruct op; unfold stepError, step.
  - by destruct (postApiRides_outcome creatorId input uuid now s).
  - by destruct (patchApiRidesId_outcome callerId rideId patch s).
  - by destruct (deleteApiRidesId_outcome callerId rideId s).
  - by destruct (postApiBookings_outcome bookerId rideId seatsBooked uuid now s).
  - by destruct (deleteApiBookingsId_outcome callerId bookingId now s)
      as [reply ?| |].
Qed.

Lemma rejected_step_keeps_store_witness :
  let s := run scenarioA storage in
  let op := CreateBooking "dave" "ride-1" 1 "booking-3" "2025-01-04T08:00:00.000Z" in
  stepError op s = Some InsufficientCapacity ∧ step op s = s.
Proof.
  intros s op. split; [vm_compute; reflexivity|].
  apply rejected_step_keeps_store. vm_compute. discriminate.
Defined.

(** ** Status and seats after a booking or a cancellation *)

Lemma withSeats_status ride n :
  Ride.status (withSeats ride n)
  = if n <=? 0 then "FULL"
    else if String.eqb (Ride.status ride) "FULL" then "OPEN" else Ride.status ride.
Proof.
  unfold withSeats, deriveStatus. cbn.
  destruct (n <=? 0) eqn:Hn; [done|].
  replace (0 <? n) with true by lia.
  by destruct (String.eqb (Ride.status ride) "FULL").
Qed.

Lemma withSeats_creatorId ride n : Ride.creatorId (withSeats ride n) = Ride.creatorId ride.
Proof.
  unfold withSeats, deriveStatus. cbn.
  destruct (n <=? 0); [done|]. by destruct (_ && _).
Qed.

Lemma postApiBookings_accepted userId rideId seatsBooked uuid now s ride :
  rides s !! rideId = Some ride →
  Ride.creatorId ride ≠ userId →
  1 ≤ seatsBooked ≤ Ride.availableSeats ride →
  Ride.status ride ≠ "FULL" →
  let booking :=
    newBooking (InsertBooking.mk rideId seatsBooked) userId (Ride.pricePerHead ride)
      uuid now in
  let ride' := withSeats ride (Ride.availableSeats ride - seatsBooked) in
  postApiBookings userId rideId seatsBooked uuid now s
  = (Json 201 (booking, Some ride'),
     mkStorage (<[rideId := ride']> (rides s)) (<[uuid := booking]> (bookings s))).
Proof.
  intros Hride Hcreator Hseats Hfull booking ride'.
  unfold postApiBookings, insertBookingSchema, issue. cbn [InsertBooking.seatsBooked].
  replace (seatsBooked <? 1) with false by lia. cbn [app].
  unfold bind at 1, getRide at 1. rewrite Hride.
  apply String.eqb_neq in Hcreator, Hfull. rewrite Hcreator, Hfull.
  replace (Ride.availableSeats ride <? seatsBooked) with false by lia.
  cbn. unfold bind at 1. rewrite (updateRide_seats _ _ ride) by exact Hride.
  cbn. by rewrite lookup_insert_eq.
Qed.

(** X2.  A booking that is accepted takes its seats off the ride, never
    below zero, and turns the status to FULL exactly when it takes the last
    seats; otherwise the status stays. *)
Theorem booking_status_rule
    (userId rideId : string) (seatsBooked : Z) (uuid now : string) s ride body s' :
  rides s !! rideId = Some ride →
  postApiBookings userId rideId seatsBooked uuid now s = (Json 201 body, s') →
  ∃ ride',
    body.2 = Some ride'
    ∧ rides s' !! rideId = Some ride'
    ∧ Ride.availableSeats ride' = Ride.availableSeats ride - seatsBooked
    ∧ 0 ≤ Ride.availableSeats ride'
    ∧ Ride.status ride'
      = (if seatsBooked =? Ride.availableSeats ride then "FULL" else Ride.status ride).
Proof.
  intros Hride Hrun.
  pose proof (postApiBookings_outcome userId rideId seatsBooked uuid now s) as Hout.
  rewrite Hrun in Hout.
  inversion Hout as [reply Hreply | ride0 Hride0 _ Hseats Hfull booking0 ride' [Hb Hs]].
  { by cbn in Hreply. }
  rewrite Hride in Hride0. injection Hride0 as <-.
  exists ride'. cbn [snd rides]. rewrite lookup_insert_eq.
  unfold ride'. rewrite withSeats_availableSeats, withSeats_status.
  repeat split; [lia|].
  apply String.eqb_neq in Hfull. rewrite Hfull.
  destruct (seatsBooked =? Ride.availableSeats ride) eqn:Hlast.
  - by replace (Ride.availableSeats ride - seatsBooked <=? 0) with true by lia.
  - by replace (Ride.availableSeats ride - seatsBooked <=? 0) with false by lia.
Qed.

Lemma booking_status_rule_witness :
  let s := run [ CreateRide "alice" (rideOffer 2 100) "ride-1" "2025-01-01T08:00:00.000Z";
                 CreateBooking "bob" "ride-1" 1 "booking-1" "2025-01-02T08:00:00.000Z" ]
             storage in
  let result :=
    postApiBookings "carol" "ride-1" 1 "booking-2" "2025-01-03T08:00:00.000Z" s in
  ∃ ride',
    rides result.2 !! "ride-1" = Some ride'
    ∧ Ride.availableSeats ride' = 0
    ∧ Ride.status ride' = "FULL".
Proof.
  intros s result.
  destruct (booking_status_rule "carol" "ride-1" 1 "booking-2"
              "2025-01-03T08:00:00.000Z" s _ _ _
              ltac:(vm_compute; reflexivity) ltac:(vm_compute; reflexivity))
    as (ride' & _ & Hstored & Hseats & _ & Hstatus).
  exists ride'. split; [exact Hstored|]. split; [exact Hseats | exact Hstatus].
Defined.

(** X3.  When the owner cancels a BOOKED booking of at least one seat on a
    stored ride whose [availableSeats] is not negative, the ride gets the
    seats back and is not FULL afterwards: a FULL ride becomes OPEN and any
    other status stays. *)
Theorem cancel_status_rule (userId id now : string) s booking ride :
  bookings s !! id = Some booking →
  Booking.userId booking = userId →
  Booking.status booking = BOOKED →
  rides s !! Booking.rideId booking = Some ride →
  0 ≤ Ride.availableSeats ride →
  1 ≤ Booking.seatsBooked booking →
  ∃ ride',
    rides (deleteApiBookingsId userId id now s).2 !! Booking.rideId booking = Some ride'
    ∧ Ride.availableSeats ride' = Ride.availableSeats ride + Booking.seatsBooked booking
    ∧ Ride.status ride'
      = (if String.eqb (Ride.status ride) "FULL" then "OPEN" else Ride.status ride)
    ∧ Ride.status ride' ≠ "FULL".
Proof.
  intros Hbooking Howner Hstatus Hride Hseats Hone.
  rewrite (deleteApiBookingsId_accepted _ _ _ _ booking) by done.
  rewrite Hride. cbn [snd rides]. rewrite lookup_insert_eq.
  eexists. split; [done|].
  rewrite withSeats_availableSeats, withSeats_status.
  replace (Ride.availableSeats ride + Booking.seatsBooked booking <=? 0)
    with false by lia.
  split; [done|]. split; [done|].
  destruct (String.eqb (Ride.status ride) "FULL") eqn:Hfull; [done|].
  by apply String.eqb_neq.
Qed.

Lemma cancel_status_rule_witness :
  let s := run scenarioA storage in
  ∃ ride',
    Ride.status <$> rides s !! "ride-1" = Some "FULL"
    ∧ rides (deleteApiBookingsId "carol" "booking-2" "2025-01-04T08:00:00.000Z" s).2
        !! "ride-1" = Some ride'
    ∧ Ride.availableSeats ride' = 1
    ∧ Ride.status ride' = "OPEN".
Proof.
  intros s.
  destruct (cancel_status_rule "carol" "booking-2" "2025-01-04T08:00:00.000Z" s _ _
              ltac:(vm_compute; reflexivity) eq_refl eq_refl
              ltac:(vm_compute; reflexivity) ltac:(cbn; lia) ltac:(cbn; lia))
    as (ride' & Hstored & Hseats & Hstatus & _).
  exists ride'. split; [vm_compute; reflexivity|]. split; [exact Hstored|].
  split; [exact Hseats | exact Hstatus].
Defined.

(** ** Booking and cancelling again *)

Lemma withSeats_back ride n :
  Ride.status ride = "OPEN" →
  1 ≤ n ≤ Ride.availableSeats ride →
  withSeats (withSeats ride (Ride.availableSeats ride - n))
    (Ride.availableSeats (withSeats ride (Ride.availableSeats ride - n)) + n)
  = ride.
Proof.
  intros Hopen Hn. rewrite withSeats_availableSeats.
  replace (Ride.availableSeats ride - n + n) with (Ride.availableSeats ride) by lia.
  destruct ride as [i c f t d tm v a ts p w m st cr]. cbn in *. subst st.
  unfold withSeats, deriveStatus. cbn.
  replace (a <=? 0) with false by lia. replace (0 <? a) with true by lia.
  by destruct (a - n <=? 0).
Qed.

(** X4.  On an OPEN ride with at most [maxSafeInteger] (2^53 - 1) seats
    left, an accepted booking followed by its cancellation by the booker
    puts the rides of the store back exactly as they were, the FULL status
    of a sold-out ride included; the booking stays in the store,
    CANCELLED, and the other bookings are untouched.  (Within that bound
    the code's difference and sum are exact; beyond it the seats it
    restores may differ from the seats it took.) *)
Theorem book_then_cancel_restores_rides
    (userId rideId : string) (seatsBooked : Z) (uuid now now' : string) s ride :
  rides s !! rideId = Some ride →
  Ride.status ride = "OPEN" →
  Ride.creatorId ride ≠ userId →
  1 ≤ seatsBooked ≤ Ride.availableSeats ride →
  Ride.availableSeats ride ≤ maxSafeInteger →
  let booked := postApiBookings userId rideId seatsBooked uuid now s in
  let freed := deleteApiBookingsId userId uuid now' booked.2 in
  rides freed.2 = rides s
  ∧ (Booking.status <$> bookings freed.2 !! uuid = Some CANCELLED)
  ∧ ∀ other, other ≠ uuid → bookings freed.2 !! other = bookings s !! other.
Proof.
  intros Hride Hopen Hcreator Hseats _ booked freed. subst freed booked.
  rewrite (postApiBookings_accepted _ _ _ _ _ _ ride) by (done || by rewrite Hopen).
  cbn [snd].
  erewrite deleteApiBookingsId_accepted;
    [| cbn [bookings]; apply lookup_insert_eq | done | done].
  cbn [snd rides bookings Booking.rideId newBooking InsertBooking.rideId
       Booking.seatsBooked InsertBooking.seatsBooked].
  rewrite lookup_insert_eq, insert_insert_eq, withSeats_back by done.
  split; [by apply insert_id|]. rewrite lookup_insert_eq. split; [done|].
  intros other Hother. by rewrite !lookup_insert_ne.
Qed.

Lemma book_then_cancel_restores_rides_witness :
  let s := run [ CreateRide "alice" (rideOffer 1 100) "ride-1" "2025-01-01T08:00:00.000Z" ]
             storage in
  let booked := postApiBookings "bob" "ride-1" 1 "booking-1" "2025-01-02T08:00:00.000Z" s in
  let freed := deleteApiBookingsId "bob" "booking-1" "2025-01-03T08:00:00.000Z" booked.2 in
  Ride.status <$> rides booked.2 !! "ride-1" = Some "FULL"
  ∧ rides freed.2 = rides s.
Proof.
  intros s booked freed. split; [vm_compute; reflexivity|].
  refine (proj1 (book_then_cancel_restores_rides "bob" "ride-1" 1 "booking-1"
    "2025-01-02T08:00:00.000Z" "2025-01-03T08:00:00.000Z" s _ _ _ _ _ _)).
  - vm_compute; reflexivity.
  - reflexivity.
  - discriminate.
  - cbn. lia.
  - vm_compute. discriminate.
Defined.

(** X5.  After a booking has taken the last seats of a ride, every further
    booking request on that ride fails and changes nothing: the creator's
    with "Cannot book your own ride", anyone else's with "Not enough seats
    available". *)
Theorem sold_out_ride_takes_no_booking
    (userId rideId : string) (seatsBooked : Z) (uuid now : string) s ride body s' :
  rides s !! rideId = Some ride →
  postApiBookings userId rideId seatsBooked uuid now s = (Json 201 body, s') →
  seatsBooked = Ride.availableSeats ride →
  ∀ (userId' : string) (seatsBooked' : Z) (uuid' now' : string),
    1 ≤ seatsBooked' →
    postApiBookings userId' rideId seatsBooked' uuid' now' s'
    = (JsonError 400
         (if String.eqb (Ride.creatorId ride) userId'
          then "Cannot book your own ride" else "Not enough seats available"),
       s').
Proof.
  intros Hride Hrun Hlast userId' seatsBooked' uuid' now' Hone.
  pose proof (postApiBookings_outcome userId rideId seatsBooked uuid now s) as Hout.
  rewrite Hrun in Hout.
  inversion Hout as [reply Hreply | ride0 Hride0 _ Hseats Hfull booking0 ride' [Hb Hs]].
  { by cbn in Hreply. }
  rewrite Hride in Hride0. injection Hride0 as <-.
  unfold postApiBookings, insertBookingSchema, issue. cbn [InsertBooking.seatsBooked].
  replace (seatsBooked' <? 1) with false by lia. cbn [app].
  unfold bind at 1, getRide at 1. cbn [rides]. rewrite lookup_insert_eq.
  unfold ride'. rewrite withSeats_creatorId, withSeats_availableSeats.
  destruct (String.eqb (Ride.creatorId ride) userId'); [done|].
  by replace (Ride.availableSeats ride - seatsBooked <? seatsBooked') with true by lia.
Qed.

Lemma sold_out_ride_takes_no_booking_witness :
  let s := run [ CreateRide "alice" (rideOffer 1 100) "ride-1" "2025-01-01T08:00:00.000Z" ]
             storage in
  let booked := postApiBookings "bob" "ride-1" 1 "booking-1" "2025-01-02T08:00:00.000Z" s in
  postApiBookings "carol" "ride-1" 1 "booking-2" "2025-01-02T08:00:01.000Z" booked.2
  = (JsonError 400 "Not enough seats available", booked.2).
Proof.
  intros s booked.
  exact (sold_out_ride_takes_no_booking "bob" "ride-1" 1 "booking-1"
    "2025-01-02T08:00:00.000Z" s _ _ _
    ltac:(vm_compute; reflexivity) ltac:(vm_compute; reflexivity) eq_refl
    "carol" 1 "booking-2" "2025-01-02T08:00:01.000Z" ltac:(lia)).
Defined.

(** ** Who may do what *)

Lemma patchApiRidesId_forbidden userId id body s ride :
  rides s !! id = Some ride →
  Ride.creatorId ride ≠ userId →
  patchApiRidesId userId id body s
  = (JsonError 403 "Not authorized to update this ride", s).
Proof.
  intros Hride Hcreator. apply String.eqb_neq in Hcreator.
  unfold patchApiRidesId, bind, getRide. by rewrite Hride, Hcreator.
Qed.

(** X6.  Only the owner changes a record.  A user who is not the creator
    of a ride can neither edit nor delete it, and a user who does not own
    a booking cannot cancel it, BOOKED or already CANCELLED: each request
    is answered 403 and the store is left as it was. *)
Theorem owner_only (userId id : string) (s : MemStorage) :
  (∀ ride, rides s !! id = Some ride → Ride.creatorId ride ≠ userId →
     (∀ body, patchApiRidesId userId id body s
              = (JsonError 403 "Not authorized to update this ride", s))
     ∧ deleteApiRidesId userId id s
       = (JsonError 403 "Not authorized to delete this ride", s))
  ∧ (∀ booking, bookings s !! id = Some booking → Booking.userId booking ≠ userId →
     ∀ now, deleteApiBookingsId userId id now s
            = (JsonError 403 "Not authorized to cancel this booking", s)).
Proof.
  split.
  - intros ride Hride Hcreator.
    split; [intros body; by apply (patchApiRidesId_forbidden _ _ _ _ ride)|].
    apply String.eqb_neq in Hcreator.
    unfold deleteApiRidesId, bind, getRide. by rewrite Hride, Hcreator.
  - intros booking Hbooking Howner now. apply String.eqb_neq in Howner.
    unfold deleteApiBookingsId, bind, getBooking. by rewrite Hbooking, Howner.
Qed.

Lemma owner_only_witness :
  let s := run scenarioB storage in
  patchApiRidesId "bob" "ride-1" (RidePatch.seats 50) s
  = (JsonError 403 "Not authorized to update this ride", s)
  ∧ deleteApiRidesId "bob" "ride-1" s
    = (JsonError 403 "Not authorized to delete this ride", s)
  ∧ Booking.status <$> bookings s !! "booking-1" = Some CANCELLED
  ∧ deleteApiBookingsId "carol" "booking-1" "2025-01-05T08:00:00.000Z" s
    = (JsonError 403 "Not authorized to cancel this booking", s).
Proof.
  intros s.
  destruct (proj1 (owner_only "bob" "ride-1" s) _ ltac:(vm_compute; reflexivity)
              ltac:(discriminate)) as [Hpatch Hdelete].
  split; [apply Hpatch|]. split; [exact Hdelete|]. split; [vm_compute; reflexivity|].
  exact (proj2 (owner_only "carol" "booking-1" s) _ ltac:(vm_compute; reflexivity)
           ltac:(discriminate) _).
Defined.

Lemma postApiBookings_own_ride rideId seatsBooked uuid now s ride :
  rides s !! rideId = Some ride →
  1 ≤ seatsBooked →
  postApiBookings (Ride.creatorId ride) rideId seatsBooked uuid now s
  = (JsonError 400 "Cannot book your own ride", s).
Proof.
  intros Hride Hone.
  unfold postApiBookings, insertBookingSchema, issue. cbn [InsertBooking.seatsBooked].
  replace (seatsBooked <? 1) with false by lia. cbn [app].
  unfold bind, getRide. by rewrite Hride, String.eqb_refl.
Qed.

(** X7.  The creator of a ride cannot book it, however many seats are
    asked for and whatever the ride's status: the request is answered
    "Cannot book your own ride" before seats and status are looked at. *)
Theorem own_ride_not_bookable (rideId : string) (seatsBooked : Z) (uuid now : string) s ride :
  rides s !! rideId = Some ride →
  1 ≤ seatsBooked →
  postApiBookings (Ride.creatorId ride) rideId seatsBooked uuid now s
  = (JsonError 400 "Cannot book your own ride", s).
Proof. apply postApiBookings_own_ride. Qed.

Lemma own_ride_not_bookable_witness :
  let s := run scenarioA storage in
  postApiBookings "alice" "ride-1" 7 "booking-3" "2025-01-04T08:00:00.000Z" s
  = (JsonError 400 "Cannot book your own ride", s).
Proof.
  intros s.
  exact (own_ride_not_bookable "ride-1" 7 "booking-3" "2025-01-04T08:00:00.000Z" s _
           ltac:(vm_compute; reflexivity) ltac:(lia)).
Defined.

(** ** What bookings and cancellations leave alone *)

Lemma sameButSeats_refl r : sameButSeats r r.
Proof. by repeat split. Qed.

Lemma sameButSeats_withSeats r n : sameButSeats r (withSeats r n).
Proof.
  unfold sameButSeats, withSeats, deriveStatus. cbn.
  destruct (n <=? 0); [by repeat split|]. by destruct (_ && _).
Qed.

(** X8.  A booking request and a cancellation never add or remove a
    ride, and of the rides they change nothing but [availableSeats] and
    [status]: creator, route, date, [totalSeats] and [pricePerHead] stay
    as they are.  A booking request changes no booking that is already
    stored under another id. *)
Theorem seat_updates_frame (userId id bookingId : string) (seatsBooked : Z)
    (uuid now : string) (s : MemStorage) :
  let booked := (postApiBookings userId id seatsBooked uuid now s).2 in
  let freed := (deleteApiBookingsId userId bookingId now s).2 in
  (∀ rideId, match rides s !! rideId, rides booked !! rideId with
             | Some ride, Some ride' => sameButSeats ride ride'
             | None, None => True
             | _, _ => False
             end)
  ∧ (∀ rideId, match rides s !! rideId, rides freed !! rideId with
               | Some ride, Some ride' => sameButSeats ride ride'
               | None, None => True
               | _, _ => False
               end)
  ∧ ∀ other, other ≠ uuid → bookings booked !! other = bookings s !! other.
Proof.
  assert (Hsame : ∀ rideId, match rides s !! rideId, rides s !! rideId with
                             | Some ride, Some ride' => sameButSeats ride ride'
                             | None, None => True
                             | _, _ => False
                             end).
  { intros rideId. destruct (rides s !! rideId); [apply sameButSeats_refl | done]. }
  assert (Hinsert : ∀ key ride n rideId,
            rides s !! key = Some ride →
            match rides s !! rideId, <[key := withSeats ride n]> (rides s) !! rideId with
            | Some ride, Some ride' => sameButSeats ride ride'
            | None, None => True
            | _, _ => False
            end).
  { intros key ride n rideId Hride. destruct (decide (key = rideId)) as [<- | Hne].
    - rewrite Hride, lookup_insert_eq. apply sameButSeats_withSeats.
    - rewrite lookup_insert_ne by done. apply Hsame. }
  intros booked freed. subst booked freed. split; [|split].
  - destruct (postApiBookings_outcome userId id seatsBooked uuid now s)
      as [reply _ | ride Hride _ _ _ booking ride']; cbn [snd rides]; [done|].
    intros rideId. by apply Hinsert.
  - destruct (deleteApiBookingsId_outcome userId bookingId now s)
      as [reply _ | booking ride _ _ _ Hride ride' | booking _ _ _ _];
      cbn [snd rides]; [done| |done].
    intros rideId. by apply Hinsert.
  - intros other Hother.
    destruct (postApiBookings_outcome userId id seatsBooked uuid now s)
      as [reply _ | ride _ _ _ _ booking ride']; cbn [snd bookings]; [done|].
    by apply lookup_insert_ne.
Qed.

Lemma seat_updates_frame_witness :
  let s := run scenarioA storage in
  let freed := (deleteApiBookingsId "bob" "booking-1" "2025-01-04T08:00:00.000Z" s).2 in
  ∃ ride ride',
    rides s !! "ride-1" = Some ride
    ∧ rides freed !! "ride-1" = Some ride'
    ∧ Ride.availableSeats ride = 0 ∧ Ride.availableSeats ride' = 1
    ∧ sameButSeats ride ride'.
Proof.
  intros s freed.
  pose proof (proj1 (proj2 (seat_updates_frame "bob" "ride-1" "booking-1" 1 "booking-3"
                              "2025-01-04T08:00:00.000Z" s)) "ride-1") as Hframe.
  cbv zeta in Hframe. fold freed in Hframe.
  destruct (rides s !! "ride-1") as [ride|] eqn:Hride;
    destruct (rides freed !! "ride-1") as [ride'|] eqn:Hride'; try done.
  exists ride, ride'. split; [done|]. split; [done|].
  assert (Hs : Ride.availableSeats <$> rides s !! "ride-1" = Some 0)
    by (vm_compute; reflexivity).
  assert (Hf : Ride.availableSeats <$> rides freed !! "ride-1" = Some 1)
    by (vm_compute; reflexivity).
  rewrite Hride in Hs. rewrite Hride' in Hf. cbn in Hs, Hf.
  injection Hs as Hs. injection Hf as Hf.
  split; [done|]. split; [done|]. exact Hframe.
Defined.

(** ** Deleting a ride *)

Lemma deleteApiRidesId_accepted userId id s ride :
  rides s !! id = Some ride →
  Ride.creatorId ride = userId →
  deleteApiRidesId userId id s
  = (Json 200 tt, mkStorage (delete id (rides s)) (bookings s)).
Proof.
  intros Hride Hcreator. apply String.eqb_eq in Hcreator.
  unfold deleteApiRidesId, bind, getRide. by rewrite Hride, Hcreator.
Qed.

(** X9.  When its creator deletes a ride, the ride is gone, every other
    ride and every booking is kept as it is (the bookings of the deleted
    ride included, which then point to no ride), and a later booking
    request on the deleted id is answered 404. *)
Theorem deleted_ride_leaves_bookings (userId id : string) s ride :
  rides s !! id = Some ride →
  Ride.creatorId ride = userId →
  let deleted := deleteApiRidesId userId id s in
  deleted.1 = Json 200 tt
  ∧ rides deleted.2 !! id = None
  ∧ (∀ other, other ≠ id → rides deleted.2 !! other = rides s !! other)
  ∧ bookings deleted.2 = bookings s
  ∧ ∀ (bookerId : string) (seatsBooked : Z) (uuid now : string),
      1 ≤ seatsBooked →
      postApiBookings bookerId id seatsBooked uuid now deleted.2
      = (JsonError 404 "Ride not found", deleted.2).
Proof.
  intros Hride Hcreator deleted. subst deleted.
  rewrite (deleteApiRidesId_accepted _ _ _ ride) by done. cbn [fst snd rides bookings].
  split; [done|]. split; [apply lookup_delete_eq|].
  split; [intros other Hother; by apply lookup_delete_ne|]. split; [done|].
  intros bookerId seatsBooked uuid now Hone.
  unfold postApiBookings, insertBookingSchema, issue. cbn [InsertBooking.seatsBooked].
  replace (seatsBooked <? 1) with false by lia. cbn [app].
  unfold bind, getRide. cbn [rides]. by rewrite lookup_delete_eq.
Qed.

Lemma deleted_ride_leaves_bookings_witness :
  let s := run scenarioA storage in
  let deleted := deleteApiRidesId "alice" "ride-1" s in
  rides deleted.2 !! "ride-1" = None
  ∧ Booking.status <$> bookings deleted.2 !! "booking-1" = Some BOOKED
  ∧ Booking.rideId <$> bookings deleted.2 !! "booking-1" = Some "ride-1".
Proof.
  intros s deleted.
  destruct (deleted_ride_leaves_bookings "alice" "ride-1" s _
              ltac:(vm_compute; reflexivity) eq_refl)
    as (_ & Hgone & _ & Hbookings & _).
  split; [exact Hgone|]. subst deleted. rewrite Hbookings.
  split; vm_compute; reflexivity.
Defined.

(** ** Bookings are never lost *)

Lemma laterOf_refl b : laterOf b b.
Proof. unfold laterOf. by repeat split; [..|left]. Qed.

Lemma laterOf_trans b1 b2 b3 : laterOf b1 b2 → laterOf b2 b3 → laterOf b1 b3.
Proof.
  intros (Hi & Hr & Hu & Hs & Hp & Ha & H12) (Hi' & Hr' & Hu' & Hs' & Hp' & Ha' & H23).
  repeat split; try congruence.
  destruct H23 as [-> | (Hb2 & Hb3 & Hat)]; [done|].
  destruct H12 as [-> | (Hb1 & Hb2' & _)]; [by right | congruence].
Qed.

Lemma laterOf_cancelled b now :
  Booking.status b = BOOKED → laterOf b (cancelledBooking b now).
Proof. intros Hb. unfold laterOf. repeat split. right. by repeat split. Qed.

Lemma laterOf_step op s k b :
  uuidFresh op s = true →
  bookings s !! k = Some b →
  ∃ b', bookings (step op s) !! k = Some b' ∧ laterOf b b'.
Proof.
  intros Hfresh Hk. destruct op; cbn [step].
  - destruct (postApiRides_outcome creatorId input uuid now s);
      exists b; split; [done | apply laterOf_refl | done | apply laterOf_refl].
  - destruct (patchApiRidesId_outcome callerId rideId patch s);
      exists b; split; [done | apply laterOf_refl | done | apply laterOf_refl].
  - destruct (deleteApiRidesId_outcome callerId rideId s);
      exists b; split; [done | apply laterOf_refl | done | apply laterOf_refl].
  - cbn in Hfresh. apply bool_decide_eq_true in Hfresh.
    destruct (postApiBookings_outcome bookerId rideId seatsBooked uuid now s).
    + exists b. split; [done | apply laterOf_refl].
    + exists b. split; [|apply laterOf_refl].
      cbn [snd bookings]. rewrite lookup_insert_ne; [done | congruence].
  - destruct (deleteApiBookingsId_outcome callerId bookingId now s)
      as [reply _ | b0 ride Hb0 _ Hstatus _ ride' | b0 Hb0 _ Hstatus _];
      cbn [snd bookings].
    + exists b. split; [done | apply laterOf_refl].
    + destruct (decide (bookingId = k)) as [-> | Hne].
      * rewrite Hk in Hb0. injection Hb0 as <-. rewrite lookup_insert_eq.
        eexists. split; [done|]. by apply laterOf_cancelled.
      * rewrite lookup_insert_ne by done. exists b. split; [done | apply laterOf_refl].
    + destruct (decide (bookingId = k)) as [-> | Hne].
      * rewrite Hk in Hb0. injection Hb0 as <-. rewrite lookup_insert_eq.
        eexists. split; [done|]. by apply laterOf_cancelled.
      * rewrite lookup_insert_ne by done. exists b. split; [done | apply laterOf_refl].
Qed.

(** X10.  Whatever operations follow, a stored booking stays in the store
    under its key with its [id], [rideId], [userId], [seatsBooked],
    [totalPrice] and [bookedAt]; its status can only go from BOOKED to
    CANCELLED, and a CANCELLED booking is never changed again. *)
Theorem booking_history (ops : list Op) : ∀ s k b,
  allSteps uuidFresh ops s = true →
  bookings s !! k = Some b →
  ∃ b',
    bookings (run ops s) !! k = Some b'
    ∧ laterOf b b'
    ∧ (Booking.status b = CANCELLED → b' = b).
Proof.
  assert (Hrun : ∀ s k b, allSteps uuidFresh ops s = true → bookings s !! k = Some b →
            ∃ b', bookings (run ops s) !! k = Some b' ∧ laterOf b b').
  { induction ops as [|op ops IH]; intros s k b Hfresh Hk; cbn in *.
    - exists b. split; [done | apply laterOf_refl].
    - apply andb_prop in Hfresh as [Hf Hfresh].
      destruct (laterOf_step op s k b Hf Hk) as (b1 & Hk1 & H1).
      destruct (IH _ _ _ Hfresh Hk1) as (b2 & Hk2 & H2).
      exists b2. split; [done|]. by apply (laterOf_trans _ b1). }
  intros s k b Hfresh Hk. destruct (Hrun s k b Hfresh Hk) as (b' & Hk' & Hlater).
  exists b'. split; [done|]. split; [done|].
  intros Hcancelled. destruct Hlater as (_ & _ & _ & _ & _ & _ & [-> | (Hb & _)]);
    [done | congruence].
Qed.

Lemma booking_history_witness :
  let s := run scenarioA storage in
  let ops := [ CancelBooking "bob" "booking-1" "2025-01-04T08:00:00.000Z";
               UpdateRide "ride-1" "alice" (RidePatch.price 250);
               CancelBooking "bob" "booking-1" "2025-01-05T08:00:00.000Z";
               DeleteRide "ride-1" "alice" ] in
  ∃ b b',
    bookings s !! "booking-1" = Some b
    ∧ bookings (run ops s) !! "booking-1" = Some b'
    ∧ Booking.status b = BOOKED
    ∧ Booking.status b' = CANCELLED
    ∧ Booking.cancelledAt b' = Some "2025-01-04T08:00:00.000Z"
    ∧ laterOf b b'.
Proof.
  intros s ops. eexists.
  destruct (booking_history ops s "booking-1" _
              ltac:(vm_compute; reflexivity) ltac:(vm_compute; reflexivity))
    as (b' & Hk' & Hlater & _).
  exists b'. split; [vm_compute; reflexivity|]. split; [exact Hk'|].
  assert (Hb' : bookings (run ops s) !! "booking-1"
                = Some (cancelledBooking
                          (newBooking (InsertBooking.mk "ride-1" 1) "bob" 100 "booking-1"
                             "2025-01-02T08:00:00.000Z")
                          "2025-01-04T08:00:00.000Z")) by (vm_compute; reflexivity).
  rewrite Hb' in Hk'. injection Hk' as <-.
  split; [reflexivity|]. split; [reflexivity|]. split; [reflexivity | exact Hlater].
Defined.

(** ** Editing a ride *)

Lemma patchApiRidesId_accepted userId id body s ride :
  rides s !! id = Some ride →
  Ride.creatorId ride = userId →
  patchApiRidesId userId id body s
  = (Json 200 (Some (spread ride body)),
     mkStorage (<[id := spread ride body]> (rides s)) (bookings s)).
Proof.
  intros Hride Hcreator. apply String.eqb_eq in Hcreator.
  unfold patchApiRidesId, bind at 1, getRide at 1. rewrite Hride, Hcreator.
  cbn [negb]. unfold bind at 1, updateRide, bind at 1, getRide. by rewrite Hride.
Qed.

Lemma spread_idemp ride body : spread (spread ride body) body = spread ride body.
Proof.
  unfold spread; cbn. f_equal;
    match goal with |- context [default _ ?o] => by destruct o | _ => idtac end.
  by destruct (RidePatch.additionalMsg body).
Qed.

(** X11.  An edit by the creator stores the patch as given: each of the
    fourteen fields of the ride takes the patch's value when the patch
    carries it and stays otherwise, and the status is never derived from
    the seats (setting [availableSeats] to 0 does not make the ride FULL);
    the other rides and the bookings are not touched. *)
Theorem patch_stored_as_given (userId id : string) (body : RidePatch.t) s ride :
  rides s !! id = Some ride →
  Ride.creatorId ride = userId →
  let patched := patchApiRidesId userId id body s in
  ∃ ride',
    patched.1 = Json 200 (Some ride')
    ∧ rides patched.2 !! id = Some ride'
    ∧ Ride.availableSeats ride'
      = default (Ride.availableSeats ride) (RidePatch.availableSeats body)
    ∧ Ride.totalSeats ride' = default (Ride.totalSeats ride) (RidePatch.totalSeats body)
    ∧ Ride.pricePerHead ride'
      = default (Ride.pricePerHead ride) (RidePatch.pricePerHead body)
    ∧ Ride.status ride' = default (Ride.status ride) (RidePatch.status body)
    ∧ Ride.creatorId ride' = default (Ride.creatorId ride) (RidePatch.creatorId body)
    ∧ (∀ other, other ≠ id → rides patched.2 !! other = rides s !! other)
    ∧ bookings patched.2 = bookings s
    ∧ Ride.id ride' = default (Ride.id ride) (RidePatch.id body)
    ∧ Ride.from ride' = default (Ride.from ride) (RidePatch.from body)
    ∧ Ride.to ride' = default (Ride.to ride) (RidePatch.to body)
    ∧ Ride.date ride' = default (Ride.date ride) (RidePatch.date body)
    ∧ Ride.time ride' = default (Ride.time ride) (RidePatch.time body)
    ∧ Ride.vehicleType ride'
      = default (Ride.vehicleType ride) (RidePatch.vehicleType body)
    ∧ Ride.whatsappLink ride'
      = default (Ride.whatsappLink ride) (RidePatch.whatsappLink body)
    ∧ Ride.additionalMsg ride'
      = match RidePatch.additionalMsg body with
        | Some additionalMsg => Some additionalMsg
        | None => Ride.additionalMsg ride
        end
    ∧ Ride.createdAt ride' = default (Ride.createdAt ride) (RidePatch.createdAt body).
Proof.
  intros Hride Hcreator patched. subst patched.
  rewrite (patchApiRidesId_accepted _ _ _ _ ride) by done.
  cbn [fst snd rides bookings]. exists (spread ride body).
  rewrite lookup_insert_eq. repeat split.
  intros other Hother. by apply lookup_insert_ne.
Qed.

Lemma patch_stored_as_given_witness :
  let s := run [ CreateRide "alice" (rideOffer 2 100) "ride-1" "2025-01-01T08:00:00.000Z" ]
             storage in
  let patched := patchApiRidesId "alice" "ride-1" (RidePatch.seats 0) s in
  ∃ ride',
    rides patched.2 !! "ride-1" = Some ride'
    ∧ Ride.availableSeats ride' = 0
    ∧ Ride.status ride' = "OPEN"
    ∧ Ride.from ride' = "Campus"
    ∧ Ride.to ride' = "Airport"
    ∧ Ride.createdAt ride' = "2025-01-01T08:00:00.000Z".
Proof.
  intros s patched.
  destruct (patch_stored_as_given "alice" "ride-1" (RidePatch.seats 0) s _
              ltac:(vm_compute; reflexivity) eq_refl)
    as (ride' & _ & Hstored & Hseats & _ & _ & Hstatus & _ & _ & _ & _
        & Hfrom & Hto & _ & _ & _ & _ & _ & Hcreated).
  exists ride'. split; [exact Hstored|]. split; [exact Hseats|].
  split; [exact Hstatus|]. split; [exact Hfrom|]. split; [exact Hto | exact Hcreated].
Defined.

(** X12.  Sending the same edit twice leaves the store as sending it once
    does (also when the edit hands the ride to another creator, so that the
    second request is refused). *)
Theorem patch_twice (userId id : string) (body : RidePatch.t) (s : MemStorage) :
  (patchApiRidesId userId id body (patchApiRidesId userId id body s).2).2
  = (patchApiRidesId userId id body s).2.
Proof.
  pose proof (patchApiRidesId_outcome userId id body s) as Hfirst.
  inversion Hfirst as [reply _ Heq | ride Hride Hcreator Heq]; cbn [snd].
  - by rewrite <- Heq.
  - pose proof (patchApiRidesId_outcome userId id body
                  (mkStorage (<[id := spread ride body]> (rides s)) (bookings s)))
      as Hsecond.
    inversion Hsecond as [reply _ Heq2 | ride2 Hride2 _ Heq2]; cbn [snd]; [done|].
    cbn [rides] in Hride2. rewrite lookup_insert_eq in Hride2.
    injection Hride2 as <-. cbn [rides bookings].
    by rewrite spread_idemp, insert_insert_eq.
Qed.

(** ** Unknown ids and malformed bookings *)

(** X13.  A request on the id of no stored ride is answered 404 "Ride not
    found" by the edit, delete and booking handlers, a cancellation on the
    id of no stored booking 404 "Booking not found"; a booking request for
    fewer than one seat is refused by the schema before the ride is looked
    up.  None of them changes the store. *)
Theorem unknown_ids_not_found (userId id : string) (s : MemStorage) :
  (rides s !! id = None →
     (∀ body, patchApiRidesId userId id body s = (JsonError 404 "Ride not found", s))
     ∧ deleteApiRidesId userId id s = (JsonError 404 "Ride not found", s)
     ∧ ∀ seatsBooked uuid now, 1 ≤ seatsBooked →
         postApiBookings userId id seatsBooked uuid now s
         = (JsonError 404 "Ride not found", s))
  ∧ (bookings s !! id = None →
     ∀ now, deleteApiBookingsId userId id now s
            = (JsonError 404 "Booking not found", s))
  ∧ (∀ seatsBooked uuid now, seatsBooked < 1 →
       postApiBookings userId id seatsBooked uuid now s
       = (ZodError ["Must book at least 1 seat"], s)).
Proof.
  split; [|split].
  - intros Hride. split; [|split].
    + intros body. unfold patchApiRidesId, bind, getRide. by rewrite Hride.
    + unfold deleteApiRidesId, bind, getRide. by rewrite Hride.
    + intros seatsBooked uuid now Hone.
      unfold postApiBookings, insertBookingSchema, issue.
      cbn [InsertBooking.seatsBooked].
      replace (seatsBooked <? 1) with false by lia. cbn [app].
      unfold bind, getRide. by rewrite Hride.
  - intros Hbooking now. unfold deleteApiBookingsId, bind, getBooking.
    by rewrite Hbooking.
  - intros seatsBooked uuid now Hnone.
    unfold postApiBookings, insertBookingSchema, issue.
    cbn [InsertBooking.seatsBooked].
    by replace (seatsBooked <? 1) with true by lia.
Qed.

Lemma unknown_ids_not_found_witness :
  let s := run scenarioA storage in
  deleteApiRidesId "alice" "ride-9" s = (JsonError 404 "Ride not found", s)
  ∧ deleteApiBookingsId "bob" "booking-9" "2025-01-04T08:00:00.000Z" s
    = (JsonError 404 "Booking not found", s)
  ∧ postApiBookings "bob" "ride-9" 0 "booking-3" "2025-01-04T08:00:00.000Z" s
    = (ZodError ["Must book at least 1 seat"], s).
Proof.
  intros s.
  destruct (unknown_ids_not_found "alice" "ride-9" s) as (Hride & _ & _).
  destruct (unknown_ids_not_found "bob" "booking-9" s) as (_ & Hbooking & _).
  destruct (unknown_ids_not_found "bob" "ride-9" s) as (_ & _ & Hschema).
  split; [apply Hride; vm_compute; reflexivity|].
  split; [apply Hbooking; vm_compute; reflexivity|].
  apply Hschema. lia.
Defined.

(** * Users and sessions *)

(** ** The user table *)

Section MapEntries.
Context {V : Type}.
Implicit Types (entries : list (string * V)) (key : string) (value : V).

Lemma mapGet_mapSet_eq key value entries :
  mapGet key (mapSet key value entries) = Some value.
Proof.
  induction entries as [|[k v] entries IH]; cbn.
  - by rewrite String.eqb_refl.
  - destruct (String.eqb k key) eqn:Hk; cbn; [by rewrite String.eqb_refl|].
    by rewrite Hk.
Qed.

Lemma mapGet_mapSet_ne key key' value entries :
  key ≠ key' → mapGet key' (mapSet key value entries) = mapGet key' entries.
Proof.
  intros Hne. induction entries as [|[k v] entries IH]; cbn.
  - apply String.eqb_neq in Hne. by rewrite Hne.
  - destruct (String.eqb k key) eqn:Hk; cbn.
    + apply String.eqb_eq in Hk as ->. apply String.eqb_neq in Hne. by rewrite Hne.
    + by rewrite IH.
Qed.

Lemma elem_of_mapSet key value entries entry :
  entry ∈ mapSet key value entries → entry = (key, value) ∨ entry ∈ entries.
Proof.
  induction entries as [|[k v] entries IH]; cbn.
  - intros ->%list_elem_of_singleton. by left.
  - destruct (String.eqb k key).
    + intros [-> | Hin]%elem_of_cons; [by left | right; by right].
    + intros [-> | Hin]%elem_of_cons; [right; by left|].
      destruct (IH Hin) as [-> | Hin']; [by left | right; by right].
Qed.

Lemma mapSet_keys_NoDup key value entries :
  NoDup entries.*1 → NoDup (mapSet key value entries).*1.
Proof.
  induction entries as [|[k v] entries IH]; cbn.
  - intros _. apply NoDup_singleton.
  - intros [Hk Hnodup]%NoDup_cons. destruct (String.eqb k key) eqn:Heq; cbn.
    + apply String.eqb_eq in Heq as ->. by apply NoDup_cons.
    + apply NoDup_cons. split; [|by apply IH].
      intros ([k' v'] & Hfst & Hin)%list_elem_of_fmap. cbn in Hfst. subst k'.
      apply elem_of_mapSet in Hin as [[= -> ->] | Hin].
      * by rewrite String.eqb_refl in Heq.
      * apply Hk. apply list_elem_of_fmap. by exists (k, v').
Qed.

Lemma mapGet_elem_of key value entries :
  NoDup entries.*1 → (key, value) ∈ entries → mapGet key entries = Some value.
Proof.
  induction entries as [|[k v] entries IH]; cbn.
  - by intros _ ?%elem_of_nil.
  - intros [Hk Hnodup]%NoDup_cons [[= -> ->] | Hin]%elem_of_cons.
    + by rewrite String.eqb_refl.
    + destruct (String.eqb k key) eqn:Heq; [|by apply IH].
      apply String.eqb_eq in Heq as ->. exfalso. apply Hk.
      apply list_elem_of_fmap. by exists (key, value).
Qed.

Lemma mapSet_values_NoDup {B} (f : V → B) key value entries :
  NoDup (f <$> entries.*2) →
  f value ∉ f <$> entries.*2 →
  NoDup (f <$> (mapSet key value entries).*2).
Proof.
  induction entries as [|[k v] entries IH]; cbn.
  - intros _ _. apply NoDup_singleton.
  - intros [Hv Hnodup]%NoDup_cons Hnew. apply not_elem_of_cons in Hnew as [Hne Hnew].
    destruct (String.eqb k key); cbn.
    + by apply NoDup_cons.
    + apply NoDup_cons. split; [|by apply IH].
      intros (v' & Hf & ([k' v''] & Hsnd & Hin)%list_elem_of_fmap)%list_elem_of_fmap.
      cbn in Hsnd. subst v''.
      apply elem_of_mapSet in Hin as [[= -> ->] | Hin]; [congruence|].
      apply Hv. rewrite Hf. apply list_elem_of_fmap. exists v'. split; [done|].
      apply list_elem_of_fmap. by exists (k', v').
Qed.

Lemma find_mapSet (p : V → bool) key value entries :
  find p entries.*2 = None → p value = true →
  find p (mapSet key value entries).*2 = Some value.
Proof.
  intros Hnone Hp. induction entries as [|[k v] entries IH]; cbn in *.
  - by rewrite Hp.
  - destruct (p v) eqn:Hpv; [done|].
    destruct (String.eqb k key); cbn; [by rewrite Hp|].
    rewrite Hpv. by apply IH.
Qed.
End MapEntries.

(** ** Logging in and out *)

Section Authentication.
Context (isEmail : string → bool).
Implicit Types (sv : Server) (user : User.t).

Lemma truthy_Some x (s : string) : truthy x = Some s ↔ x = Some s ∧ s ≠ "".
Proof.
  destruct x as [[|c x]|]; cbn; split; try done.
  - by intros [[= <-] ?].
  - by intros [= <-].
  - by intros [[= <-] ?].
  - by intros [? ?].
Qed.

Lemma getCurrentUser_Some header sv userId :
  getCurrentUser header sv = Some userId
  ↔ ∃ sessionId, header = Some sessionId ∧ sessionId ≠ ""
      ∧ sessions sv !! sessionId = Some userId ∧ userId ≠ "".
Proof.
  unfold getCurrentUser. split.
  - destruct (truthy header) as [sessionId|] eqn:Hheader; [|done].
    apply truthy_Some in Hheader as [-> Hne].
    intros [Hlookup Huser]%truthy_Some. by exists sessionId.
  - intros (sessionId & -> & Hne & Hlookup & Huser).
    rewrite (proj2 (truthy_Some (Some sessionId) sessionId)) by done.
    by apply truthy_Some.
Qed.

Lemma postApiAuthLogin_known email name uuid now sessionId sv e n user :
  truthy email = Some e → truthy name = Some n →
  getUserByEmail e sv = Some user →
  postApiAuthLogin isEmail email name uuid now sessionId sv
  = (Json 200 (user, sessionId),
     mkServer (db sv) (users sv) (<[sessionId := User.id user]> (sessions sv))).
Proof. intros He Hn Hfound. unfold postApiAuthLogin. by rewrite He, Hn, Hfound. Qed.

Lemma postApiAuthLogin_new email name uuid now sessionId sv e n :
  truthy email = Some e → truthy name = Some n →
  getUserByEmail e sv = None →
  insertUserSchema isEmail (InsertUser.mk n e None) = [] →
  postApiAuthLogin isEmail email name uuid now sessionId sv
  = (Json 200 (newUser (InsertUser.mk n e None) uuid now, sessionId),
     mkServer (db sv)
       (mapSet uuid (newUser (InsertUser.mk n e None) uuid now) (users sv))
       (<[sessionId := uuid]> (sessions sv))).
Proof.
  intros He Hn Hfound Hparse. unfold postApiAuthLogin.
  by rewrite He, Hn, Hfound, Hparse.
Qed.

(** The two ways a login succeeds. *)
Lemma postApiAuthLogin_inv email name uuid now sessionId sv user sid sv' :
  postApiAuthLogin isEmail email name uuid now sessionId sv
  = (Json 200 (user, sid), sv') →
  sid = sessionId
  ∧ db sv' = db sv
  ∧ sessions sv' = <[sessionId := User.id user]> (sessions sv)
  ∧ ∃ e n,
      truthy email = Some e ∧ truthy name = Some n
      ∧ ((getUserByEmail e sv = Some user ∧ users sv' = users sv)
         ∨ (getUserByEmail e sv = None
            ∧ insertUserSchema isEmail (InsertUser.mk n e None) = []
            ∧ user = newUser (InsertUser.mk n e None) uuid now
            ∧ users sv' = mapSet uuid user (users sv))).
Proof.
  unfold postApiAuthLogin.
  destruct (truthy email) as [e|] eqn:He; [|done].
  destruct (truthy name) as [n|] eqn:Hn; [|done].
  destruct (getUserByEmail e sv) as [found|] eqn:Hfound.
  - intros [= <- <- <-]. cbn. repeat split. exists e, n. repeat split. by left.
  - destruct (insertUserSchema isEmail _) eqn:Hparse; [|done].
    cbn. intros [= <- <- <-]. cbn. repeat split. exists e, n. repeat split.
    right. by repeat split.
Qed.

Lemma UsersOk_login email name uuid now sessionId sv :
  UsersOk (users sv) →
  UsersOk (users (postApiAuthLogin isEmail email name uuid now sessionId sv).2).
Proof.
  intros Hok. pose proof Hok as (Hkeys & Hids & Hemails).
  unfold postApiAuthLogin.
  destruct (truthy email) as [e|]; [|done].
  destruct (truthy name) as [n|]; [|done].
  destruct (getUserByEmail e sv) as [found|] eqn:Hnone; [done|].
  destruct (insertUserSchema isEmail _); [|done].
  cbn [createUser snd users].
  split; [by apply mapSet_keys_NoDup|]. split.
  - apply Forall_forall. intros entry [-> | Hin]%elem_of_mapSet; [done|].
    by apply (proj1 (Forall_forall _ _) Hids).
  - apply mapSet_values_NoDup; [done|].
    intros (other & Hemail & Hin)%list_elem_of_fmap.
    unfold getUserByEmail in Hnone.
    apply list_elem_of_In in Hin.
    pose proof (find_none _ _ Hnone other Hin) as Hother. cbn in Hother.
    apply String.eqb_neq in Hother. apply Hother. by rewrite <- Hemail.
Qed.

Lemma UsersOk_authStep op sv :
  UsersOk (users sv) → UsersOk (users (authStep isEmail op sv)).
Proof.
  destruct op as [email name uuid now sessionId | header]; cbn [authStep].
  - apply UsersOk_login.
  - unfold postApiAuthLogout. cbn. by destruct (truthy header).
Qed.

(** X14.  In every server reached from start-up by logins and logouts,
    every user is stored once, under its own id, and no two users have
    the same email. *)
Theorem users_stay_consistent (ops : list AuthOp) :
  UsersOk (users (authRun isEmail ops server)).
Proof.
  unfold authRun.
  assert (Hstart : UsersOk (users server)).
  { repeat split; cbn; constructor. }
  revert Hstart. generalize server.
  induction ops as [|op ops IH]; intros sv Hsv; [done|].
  cbn. apply IH. by apply UsersOk_authStep.
Qed.

(** X15.  After a successful login, GET /api/auth/me with the session id
    of the reply returns the user of the reply (ids are not empty
    strings). *)
Theorem login_then_me email name uuid now sessionId sv user sid sv' :
  UsersOk (users sv) →
  postApiAuthLogin isEmail email name uuid now sessionId sv
  = (Json 200 (user, sid), sv') →
  sid ≠ "" →
  User.id user ≠ "" →
  getApiAuthMe (Some sid) sv' = Json 200 user.
Proof.
  intros (Hkeys & Hids & _) Hlogin Hsid Huid.
  apply postApiAuthLogin_inv in Hlogin as (-> & _ & Hsessions & e & n & _ & _ & Hcase).
  unfold getApiAuthMe.
  rewrite (proj2 (getCurrentUser_Some (Some sessionId) sv' (User.id user))).
  2: { exists sessionId. rewrite Hsessions, lookup_insert_eq. by repeat split. }
  unfold getUser.
  destruct Hcase as [[Hfound Husers] | (_ & _ & Huser & Husers)]; rewrite Husers.
  - unfold getUserByEmail in Hfound. apply find_some in Hfound as [Hin _].
    apply list_elem_of_In, list_elem_of_fmap in Hin as ([k u] & Hsnd & Hin).
    cbn in Hsnd. subst u.
    pose proof (proj1 (Forall_forall _ _) Hids _ Hin) as Hid. cbn in Hid.
    rewrite Hid. by rewrite (mapGet_elem_of k user).
  - rewrite Huser at 1. cbn [User.id newUser]. by rewrite mapGet_mapSet_eq.
Qed.

(** X16.  Logging in again with the email of a successful login returns
    the same user, whatever name is sent, and adds no user. *)
Theorem login_again_same_user email name uuid now sessionId sv user sid sv'
    (name' : string) (uuid' now' sessionId' : string) :
  postApiAuthLogin isEmail email name uuid now sessionId sv
  = (Json 200 (user, sid), sv') →
  name' ≠ "" →
  let again :=
    postApiAuthLogin isEmail email (Some name') uuid' now' sessionId' sv' in
  again.1 = Json 200 (user, sessionId')
  ∧ users again.2 = users sv'.
Proof.
  intros Hlogin Hname again. subst again.
  apply postApiAuthLogin_inv in Hlogin as (_ & _ & _ & e & n & He & _ & Hcase).
  assert (Hfound : getUserByEmail e sv' = Some user).
  { unfold getUserByEmail in *.
    destruct Hcase as [[Hfound ->] | (Hnone & _ & -> & ->)]; [done|].
    apply find_mapSet; [done|]. cbn. apply String.eqb_refl. }
  by rewrite (postApiAuthLogin_known _ _ _ _ _ _ e name' user)
    by (done || by apply truthy_Some).
Qed.
End Authentication.

Lemma login_then_me_witness :
  let login :=
    postApiAuthLogin hasAt (Some "bob@vit.example") (Some "Bob")
      "user-1" "2025-01-01T07:00:00.000Z" "session-1" server in
  ∃ user,
    login.1 = Json 200 (user, "session-1")
    ∧ User.email user = "bob@vit.example"
    ∧ getApiAuthMe (Some "session-1") login.2 = Json 200 user.
Proof.
  intros login. eexists. split; [vm_compute; reflexivity|]. split; [reflexivity|].
  refine (login_then_me hasAt (Some "bob@vit.example") (Some "Bob")
            "user-1" "2025-01-01T07:00:00.000Z" "session-1" server _ _ _ _ _ _ _).
  - repeat split; cbn; constructor.
  - vm_compute; reflexivity.
  - discriminate.
  - discriminate.
Defined.

Lemma login_again_same_user_witness :
  let first :=
    postApiAuthLogin hasAt (Some "bob@vit.example") (Some "Bob")
      "user-1" "2025-01-01T07:00:00.000Z" "session-1" server in
  let again :=
    postApiAuthLogin hasAt (Some "bob@vit.example") (Some "Robert")
      "user-2" "2025-01-02T07:00:00.000Z" "session-2" first.2 in
  ∃ user,
    first.1 = Json 200 (user, "session-1")
    ∧ User.name user = "Bob"
    ∧ again.1 = Json 200 (user, "session-2")
    ∧ users again.2 = users first.2.
Proof.
  intros first again. eexists. split; [vm_compute; reflexivity|].
  split; [reflexivity|].
  refine (login_again_same_user hasAt (Some "bob@vit.example") (Some "Bob")
            "user-1" "2025-01-01T07:00:00.000Z" "session-1" server _ "session-1" first.2
            "Robert" "user-2" "2025-01-02T07:00:00.000Z" "session-2" _ _).
  - vm_compute; reflexivity.
  - discriminate.
Defined.

(** X17.  After a logout, the session id no longer authenticates: GET
    /api/auth/me answers 401 and every route behind [requireAuth] answers
    401 without running its handler.  The other sessions, the users and the
    store are as before. *)
Theorem logout_ends_session (sessionId : string) (sv : Server) :
  let out := (postApiAuthLogout (Some sessionId) sv).2 in
  getApiAuthMe (Some sessionId) out = JsonError 401 "Not authenticated"
  ∧ (∀ A (handler : string → M (Reply A)),
       requireAuth (Some sessionId) handler out = (JsonError 401 "Unauthorized", out))
  ∧ (∀ other, other ≠ sessionId →
       getCurrentUser (Some other) out = getCurrentUser (Some other) sv)
  ∧ users out = users sv
  ∧ db out = db sv.
Proof.
  intros out.
  assert (Hnone : getCurrentUser (Some sessionId) out = None).
  { subst out. unfold postApiAuthLogout, getCurrentUser.
    destruct (truthy (Some sessionId)) as [sid|] eqn:Hsid; [|done].
    apply truthy_Some in Hsid as [[= <-] _]. cbn. by rewrite lookup_delete_eq. }
  split; [unfold getApiAuthMe; by rewrite Hnone|].
  split; [intros A handler; unfold requireAuth; by rewrite Hnone|].
  subst out. unfold postApiAuthLogout. cbn [snd].
  destruct (truthy (Some sessionId)) as [sid|] eqn:Hsid; [|done].
  apply truthy_Some in Hsid as [[= <-] _]. cbn [users db].
  split; [|done]. intros other Hother. unfold getCurrentUser.
  destruct (truthy (Some other)) as [sid|] eqn:Hsid; [|done].
  apply truthy_Some in Hsid as [[= <-] _]. cbn [sessions].
  by rewrite lookup_delete_ne.
Qed.

Lemma logout_ends_session_witness :
  let login :=
    postApiAuthLogin hasAt (Some "bob@vit.example") (Some "Bob")
      "user-1" "2025-01-01T07:00:00.000Z" "session-1" server in
  let out := (postApiAuthLogout (Some "session-1") login.2).2 in
  getCurrentUser (Some "session-1") login.2 = Some "user-1"
  ∧ getApiAuthMe (Some "session-1") out = JsonError 401 "Not authenticated"
  ∧ requireAuth (Some "session-1")
      (λ userId, postApiRides userId (rideOffer 2 100) "ride-1" "2025-01-01T08:00:00.000Z")
      out
    = (JsonError 401 "Unauthorized", out).
Proof.
  intros login out. split; [vm_compute; reflexivity|].
  destruct (logout_ends_session "session-1" login.2) as (Hme & Hauth & _).
  split; [exact Hme | apply Hauth].
Defined.

(** X18.  A login without email or name (absent or empty) is answered 400
    "Email and name are required"; a login with an email no user has is
    refused by the schema when the name is shorter than two characters or
    the email is not an email address.  Neither creates a user or a
    session. *)
Theorem login_rejections (isEmail : string → bool) (email name : option string)
    (uuid now sessionId : string) (sv : Server) :
  let result := postApiAuthLogin isEmail email name uuid now sessionId sv in
  (truthy email = None ∨ truthy name = None →
     result = (JsonError 400 "Email and name are required", sv))
  ∧ (∀ e n, truthy email = Some e → truthy name = Some n →
       getUserByEmail e sv = None →
       (String.length n < 2)%nat ∨ isEmail e = false →
       ∃ issues, issues ≠ [] ∧ result = (ZodError issues, sv)).
Proof.
  intros result. subst result. unfold postApiAuthLogin. split.
  - intros [-> | Hname]; [done|]. rewrite Hname. by destruct (truthy email).
  - intros e n -> -> -> Hbad.
    destruct (insertUserSchema isEmail (InsertUser.mk n e None)) as [|i issues] eqn:Hparse.
    + exfalso. unfold insertUserSchema in Hparse.
      apply app_eq_nil in Hparse as [Hname Hemail].
      apply issue_nil in Hname, Hemail.
      destruct Hbad as [Hshort | Hinvalid].
      * apply Nat.ltb_ge in Hname. cbn [InsertUser.name] in Hname. lia.
      * cbn [InsertUser.email] in Hemail. by rewrite Hinvalid in Hemail.
    + exists (i :: issues). by split.
Qed.

Lemma login_rejections_witness :
  postApiAuthLogin hasAt (Some "") (Some "Bob") "user-1" "2025-01-01T07:00:00.000Z"
    "session-1" server
  = (JsonError 400 "Email and name are required", server)
  ∧ ∃ issues,
      issues ≠ []
      ∧ postApiAuthLogin hasAt (Some "bob.vit.example") (Some "B") "user-1"
          "2025-01-01T07:00:00.000Z" "session-1" server
        = (ZodError issues, server).
Proof.
  split.
  - refine (proj1 (login_rejections hasAt (Some "") (Some "Bob") "user-1"
              "2025-01-01T07:00:00.000Z" "session-1" server) _).
    by left.
  - refine (proj2 (login_rejections hasAt (Some "bob.vit.example") (Some "B") "user-1"
              "2025-01-01T07:00:00.000Z" "session-1" server)
              "bob.vit.example" "B" eq_refl eq_refl eq_refl _).
    left. cbn. lia.
Defined.

(** X19.  A ride created through [requireAuth] with the session of a
    successful login has the logged-in user as its creator: that user may
    then edit it and may not book it. *)
Theorem authenticated_creator (isEmail : string → bool) email name uuid now sessionId
    sv user sid sv' (body : InsertRide.t) (rideUuid rideNow : string) ride sv'' :
  postApiAuthLogin isEmail email name uuid now sessionId sv
  = (Json 200 (user, sid), sv') →
  sid ≠ "" →
  User.id user ≠ "" →
  requireAuth (Some sid) (λ userId, postApiRides userId body rideUuid rideNow) sv'
  = (Json 201 ride, sv'') →
  Ride.creatorId ride = User.id user
  ∧ rides (db sv'') !! rideUuid = Some ride
  ∧ (∀ patch, (requireAuth (Some sid) (λ userId, patchApiRidesId userId rideUuid patch)
                 sv'').1 = Json 200 (Some (spread ride patch)))
  ∧ ∀ seatsBooked bookingUuid bookingNow, 1 ≤ seatsBooked →
      (requireAuth (Some sid)
         (λ userId, postApiBookings userId rideUuid seatsBooked bookingUuid bookingNow)
         sv'').1 = JsonError 400 "Cannot book your own ride".
Proof.
  intros Hlogin Hsid Huid Hcreate.
  apply postApiAuthLogin_inv in Hlogin as (-> & _ & Hsessions & _).
  assert (Hcurrent : getCurrentUser (Some sessionId) sv' = Some (User.id user)).
  { apply getCurrentUser_Some. exists sessionId.
    rewrite Hsessions, lookup_insert_eq. by repeat split. }
  unfold requireAuth in Hcreate. rewrite Hcurrent in Hcreate.
  pose proof (postApiRides_outcome (User.id user) body rideUuid rideNow (db sv')) as Hout.
  destruct (postApiRides (User.id user) body rideUuid rideNow (db sv'))
    as [reply db'] eqn:Hrun.
  injection Hcreate as -> <-.
  inversion Hout as [issues | Hparse ride0 [Hride Hdb]]. clear Hout.
  set (db1 := mkStorage (<[rideUuid := ride0]> (rides (db sv'))) (bookings (db sv'))).
  assert (Hcurrent' :
    getCurrentUser (Some sessionId) (mkServer db1 (users sv') (sessions sv'))
    = Some (User.id user)) by exact Hcurrent.
  assert (Hstored : rides db1 !! rideUuid = Some ride0) by apply lookup_insert_eq.
  split; [done|]. split; [done|]. split.
  - intros patch. unfold requireAuth. rewrite Hcurrent'. cbn [db].
    by rewrite (patchApiRidesId_accepted _ _ _ _ ride0).
  - intros seatsBooked bookingUuid bookingNow Hone.
    unfold requireAuth. rewrite Hcurrent'. cbn [db].
    change (User.id user) with (Ride.creatorId ride0).
    by rewrite (postApiBookings_own_ride rideUuid seatsBooked bookingUuid bookingNow
                  db1 ride0).
Qed.

Lemma authenticated_creator_witness :
  let login :=
    postApiAuthLogin hasAt (Some "alice@vit.example") (Some "Alice")
      "user-1" "2025-01-01T07:00:00.000Z" "session-1" server in
  let created :=
    requireAuth (Some "session-1")
      (λ userId, postApiRides userId (rideOffer 2 100) "ride-1" "2025-01-01T08:00:00.000Z")
      login.2 in
  ∃ ride,
    created.1 = Json 201 ride
    ∧ Ride.creatorId ride = "user-1"
    ∧ rides (db created.2) !! "ride-1" = Some ride.
Proof.
  intros login created. eexists. split; [vm_compute; reflexivity|].
  destruct (authenticated_creator hasAt (Some "alice@vit.example") (Some "Alice")
              "user-1" "2025-01-01T07:00:00.000Z" "session-1" server _ _ _
              (rideOffer 2 100) "ride-1" "2025-01-01T08:00:00.000Z" _ _
              ltac:(vm_compute; reflexivity) ltac:(discriminate) ltac:(discriminate)
              ltac:(vm_compute; reflexivity))
    as (Hcreator & Hstored & _).
  split; [exact Hcreator | exact Hstored].
Defined.

(** * Listings *)

Section ListingLemmas.
Context {A : Type}.
Implicit Types (l : list A) (x : A).

Lemma elem_of_arrayFrom (m : gmap string A) x :
  x ∈ arrayFrom m ↔ ∃ k, m !! k = Some x.
Proof.
  unfold arrayFrom. rewrite list_elem_of_fmap. split.
  - intros ([k v] & -> & Hin). exists k. by apply elem_of_map_to_list.
  - intros [k Hk]. exists (k, x). split; [done|]. by apply elem_of_map_to_list.
Qed.

Lemma elem_of_List_filter (p : A → bool) l x :
  x ∈ List.filter p l ↔ x ∈ l ∧ p x = true.
Proof. rewrite !list_elem_of_In. apply filter_In. Qed.

Lemma sortInsert_perm (compare : A → A → Z) x l : sortInsert compare x l ≡ₚ x :: l.
Proof.
  induction l as [|y l IH]; cbn; [done|].
  destruct (compare x y <=? 0); [done|]. rewrite IH. apply Permutation_swap.
Qed.

Lemma arraySort_perm (compare : A → A → Z) l : arraySort compare l ≡ₚ l.
Proof.
  unfold arraySort. induction l as [|x l IH]; cbn; [done|].
  by rewrite sortInsert_perm, IH.
Qed.

Lemma elem_of_arraySort (compare : A → A → Z) l x : x ∈ arraySort compare l ↔ x ∈ l.
Proof. by rewrite arraySort_perm. Qed.

Lemma StronglySorted_List_filter (R : relation A) (p : A → bool) l :
  StronglySorted R l → StronglySorted R (List.filter p l).
Proof.
  induction 1 as [|x l Hsorted IH Hall]; cbn; [constructor|].
  destruct (p x); [|done]. constructor; [done|].
  apply Forall_forall. intros y [Hy _]%elem_of_List_filter.
  by apply (proj1 (Forall_forall _ _) Hall).
Qed.

Context (getTime : string → Z) (stamp : A → string).

Lemma sortInsert_sorted x l :
  StronglySorted (notOlder getTime stamp) l →
  StronglySorted (notOlder getTime stamp) (sortInsert (newestFirst getTime stamp) x l).
Proof.
  induction 1 as [|y l Hsorted IH Hall]; cbn.
  - repeat constructor.
  - unfold newestFirst at 1.
    destruct (getTime (stamp y) - getTime (stamp x) <=? 0) eqn:Hcmp.
    + constructor; [by constructor|].
      assert (Hxy : notOlder getTime stamp x y) by (unfold notOlder; lia).
      constructor; [done|].
      apply Forall_forall. intros z Hz.
      pose proof (proj1 (Forall_forall _ _) Hall z Hz) as Hyz.
      unfold notOlder in *. lia.
    + constructor; [done|].
      apply Forall_forall. intros z Hz.
      rewrite sortInsert_perm in Hz. apply elem_of_cons in Hz as [-> | Hz].
      * unfold notOlder. lia.
      * by apply (proj1 (Forall_forall _ _) Hall).
Qed.

Lemma arraySort_sorted l :
  StronglySorted (notOlder getTime stamp) (arraySort (newestFirst getTime stamp) l).
Proof.
  unfold arraySort. induction l as [|x l IH]; cbn; [constructor|].
  by apply sortInsert_sorted.
Qed.
End ListingLemmas.

(** X20.  The seats held on a ride, as counted by the seat ledger, are the
    sum of [seatsBooked] over the BOOKED bookings that [getBookingsByRide]
    lists for the ride. *)
Theorem bookedSeats_getBookingsByRide (rideId : string) (s : MemStorage) :
  bookedSeats rideId (bookings s)
  = foldr Z.add 0
      (Booking.seatsBooked <$> List.filter isBooked (getBookingsByRide rideId s)).
Proof.
  unfold bookedSeats, getBookingsByRide, arrayFrom. rewrite map_fold_foldr.
  induction (map_to_list (bookings s)) as [|[k b] l IH]; [done|].
  cbn. rewrite IH. unfold holds, isBooked.
  destruct (String.eqb (Booking.rideId b) rideId) eqn:Hride; cbn.
  - unfold isBooked. by destruct (Booking.status b).
  - by destruct (Booking.status b).
Qed.

Section ListingTheorems.
Context (getTime : string → Z) (toLowerCase : string → string).

(** X21.  [getAllRides] lists exactly the stored rides that pass every
    filter that is given: "from" and "to" must occur in the ride's, in
    lower case; the date must be equal; the vehicle type must be equal
    unless the filter is "all".  A filter that is absent or empty lets
    every ride through. *)
Theorem getAllRides_lists (filters : RideFilters.t) (s : MemStorage) (ride : Ride.t) :
  ride ∈ getAllRides getTime toLowerCase (Some filters) s
  ↔ (∃ id, rides s !! id = Some ride)
    ∧ (∀ from, truthy (RideFilters.from filters) = Some from →
         includes (toLowerCase (Ride.from ride)) (toLowerCase from) = true)
    ∧ (∀ to, truthy (RideFilters.to filters) = Some to →
         includes (toLowerCase (Ride.to ride)) (toLowerCase to) = true)
    ∧ (∀ date, truthy (RideFilters.date filters) = Some date → Ride.date ride = date)
    ∧ (∀ vehicleType, truthy (RideFilters.vehicleType filters) = Some vehicleType →
         vehicleType ≠ "all" → Ride.vehicleType ride = vehicleType).
Proof.
  unfold getAllRides.
  destruct (truthy (RideFilters.from filters)) as [from|];
    destruct (truthy (RideFilters.to filters)) as [to|];
    destruct (truthy (RideFilters.date filters)) as [date|];
    destruct (truthy (RideFilters.vehicleType filters)) as [vehicleType|];
    try destruct (String.eqb_spec vehicleType "all") as [Hall | Hall];
    cbv zeta;
    rewrite ?elem_of_List_filter, elem_of_arraySort, elem_of_arrayFrom,
      ?String.eqb_eq;
    (split; [intros; destruct_and?; repeat split; (done || by intros ? [= <-] || congruence)
            | intros (Hstored & Hfrom & Hto & Hdate & Hvehicle);
              repeat split; (done || by apply Hfrom || by apply Hto
                             || by apply Hdate || by apply Hvehicle)]).
Qed.

(** X22.  Every listing of rides is ordered by creation time, newest
    first, whatever the filters. *)
Theorem getAllRides_newest_first (filters : option RideFilters.t) (s : MemStorage) :
  StronglySorted (notOlder getTime Ride.createdAt)
    (getAllRides getTime toLowerCase filters s).
Proof.
  unfold getAllRides.
  pose proof (arraySort_sorted getTime Ride.createdAt (arrayFrom (rides s))) as Hsorted.
  destruct filters as [filters|]; [|done].
  destruct (truthy (RideFilters.from filters)), (truthy (RideFilters.to filters)),
    (truthy (RideFilters.date filters)),
    (truthy (RideFilters.vehicleType filters)) as [vehicleType|];
    try destruct (String.eqb vehicleType "all");
    cbv zeta; repeat apply StronglySorted_List_filter; done.
Qed.

(** X23.  [getRidesByCreator] lists exactly the stored rides of the
    creator and [getBookingsByUser] exactly the stored bookings of the
    user, each newest first. *)
Theorem own_listings (userId : string) (s : MemStorage) :
  (∀ ride, ride ∈ getRidesByCreator getTime userId s
           ↔ (∃ id, rides s !! id = Some ride) ∧ Ride.creatorId ride = userId)
  ∧ StronglySorted (notOlder getTime Ride.createdAt) (getRidesByCreator getTime userId s)
  ∧ (∀ booking, booking ∈ getBookingsByUser getTime userId s
                ↔ (∃ id, bookings s !! id = Some booking)
                  ∧ Booking.userId booking = userId)
  ∧ StronglySorted (notOlder getTime Booking.bookedAt)
      (getBookingsByUser getTime userId s).
Proof.
  unfold getRidesByCreator, getBookingsByUser.
  split; [|split; [apply arraySort_sorted|split; [|apply arraySort_sorted]]].
  - intros ride.
    rewrite elem_of_arraySort, elem_of_List_filter, elem_of_arrayFrom, String.eqb_eq.
    done.
  - intros booking.
    rewrite elem_of_arraySort, elem_of_List_filter, elem_of_arrayFrom, String.eqb_eq.
    done.
Qed.

(** X24.  GET /api/bookings/my lists exactly the caller's stored bookings,
    each with its ride as stored now; the booking of a ride that has been
    deleted is still listed, with no ride. *)
Theorem my_bookings_listed (userId : string) (sv : Server) :
  ∃ body,
    getApiBookingsMy getTime userId sv = Json 200 body
    ∧ ∀ booking ride,
        (booking, ride) ∈ body
        ↔ (∃ id, bookings (db sv) !! id = Some booking)
          ∧ Booking.userId booking = userId
          ∧ ride = rideOf booking sv
          ∧ (ride = None ↔ rides (db sv) !! Booking.rideId booking = None).
Proof.
  unfold getApiBookingsMy. eexists. split; [done|]. intros booking ride.
  rewrite list_elem_of_fmap. unfold getBookingsByUser.
  setoid_rewrite elem_of_arraySort. setoid_rewrite elem_of_List_filter.
  setoid_rewrite elem_of_arrayFrom. setoid_rewrite String.eqb_eq.
  assert (Hnone : ∀ b, rideOf b sv = None ↔ rides (db sv) !! Booking.rideId b = None).
  { intros b. unfold rideOf. by destruct (rides (db sv) !! Booking.rideId b). }
  split.
  - intros (b & [= -> ->] & Hstored & Huser). by repeat split; try apply Hnone.
  - intros (Hstored & Huser & -> & _). by exists booking.
Qed.
End ListingTheorems.

Lemma getAllRides_lists_witness :
  let s := run scenarioA storage in
  let filters := RideFilters.mk (Some "CAMP") (Some "") None (Some "all") in
  ∃ ride,
    rides s !! "ride-1" = Some ride
    ∧ Ride.from ride = "Campus"
    ∧ ride ∈ getAllRides isoDigits asciiLower (Some filters) s
    ∧ ride ∉ getAllRides isoDigits asciiLower
               (Some (RideFilters.mk None None None (Some "bus"))) s.
Proof.
  intros s filters. eexists. split; [vm_compute; reflexivity|].
  split; [reflexivity|]. split.
  - apply getAllRides_lists. split; [exists "ride-1"; vm_compute; reflexivity|].
    repeat split; intros ? [= <-]; (reflexivity || by vm_compute).
  - intros (_ & _ & _ & _ & Hvehicle)%getAllRides_lists.
    by specialize (Hvehicle "bus" eq_refl ltac:(discriminate)).
Defined.

Lemma own_listings_witness :
  let s := run scenarioA storage in
  (∃ ride, ride ∈ getRidesByCreator isoDigits "alice" s ∧ Ride.id ride = "ride-1")
  ∧ (∃ booking, booking ∈ getBookingsByUser isoDigits "bob" s
                ∧ Booking.id booking = "booking-1")
  ∧ ∀ booking, booking ∈ getBookingsByUser isoDigits "bob" s →
               Booking.userId booking = "bob".
Proof.
  intros s.
  destruct (own_listings isoDigits "alice" s) as (Hrides & _).
  destruct (own_listings isoDigits "bob" s) as (_ & _ & Hbookings & _).
  split; [|split].
  - eexists. split.
    + apply Hrides. split; [exists "ride-1"; vm_compute; reflexivity | reflexivity].
    + reflexivity.
  - eexists. split.
    + apply Hbookings.
      split; [exists "booking-1"; vm_compute; reflexivity | reflexivity].
    + reflexivity.
  - intros booking Hin. by apply Hbookings in Hin as [_ ?].
Defined.

Lemma my_bookings_listed_witness :
  let sv := mkServer (run rideDeleted storage) [] ∅ in
  ∃ body booking,
    getApiBookingsMy isoDigits "bob" sv = Json 200 body
    ∧ Booking.id booking = "booking-1"
    ∧ Booking.status booking = BOOKED
    ∧ (booking, None) ∈ body.
Proof.
  intros sv.
  destruct (my_bookings_listed isoDigits "bob" sv) as (body & Hbody & Hlisted).
  exists body. eexists. split; [exact Hbody|].
  assert (Hin : ∀ b, bookings (db sv) !! "booking-1" = Some b → (b, None) ∈ body).
  { intros b Hb. apply Hlisted. split; [by exists "booking-1"|].
    assert (Hb' : bookings (db sv) !! "booking-1"
                  = Some (newBooking (InsertBooking.mk "ride-1" 1) "bob" 100 "booking-1"
                            "2025-01-02T08:00:00.000Z")) by (vm_compute; reflexivity).
    rewrite Hb' in Hb. injection Hb as <-.
    split; [reflexivity|]. split; [vm_compute; reflexivity|].
    split; [intros _; vm_compute; reflexivity | done]. }
  split; [|split].
  3: { apply Hin. vm_compute; reflexivity. }
  all: reflexivity.
Defined.
